(** * Auto Archive (obsidian-auto-archive): the archival engine of [src/main.ts]

    A shallow embedding of the plugin's path utilities, eligibility test and
    scan loop, with the properties its specification states about them.

    Conventions of the embedding:
    - a JavaScript string is the list of its UTF-16 code units ([jsstring]);
    - JavaScript numbers that hold instants (milliseconds) and day counts are
      integers ([Z]); [new Date(n)] is modelled with its TimeClip range check;
    - the plugin's [async] methods run one after the other, so they are
      functions in a state-and-exception monad over the plugin's world:
      its settings, the vault, the console and a log of the requests that
      were sent to the vault;
    - the vault and the clock are Obsidian's, not the plugin's: they are an
      interface ([Host]), with an in-memory tree ([MemVault]) as a reference
      implementation. *)

From Stdlib Require Import List ZArith NArith Bool Lia Ascii String.
Import ListNotations.

Set Implicit Arguments.

(* ================================================================== *)
(** ** JavaScript strings *)
(* ================================================================== *)

Module JS.

(** A string is a sequence of UTF-16 code units. *)
Definition jsstring := list N.

(** String literals of the development (ASCII only). *)
Definition js (s : string) : jsstring := map N_of_ascii (list_ascii_of_string s).

Definition slash : N := 47.

Definition length (s : jsstring) : Z := Z.of_nat (List.length s).

(** [a == b] on strings. *)
Fixpoint eqb (a b : jsstring) : bool :=
  match a, b with
  | [], [] => true
  | x :: a', y :: b' => N.eqb x y && eqb a' b'
  | _, _ => false
  end.

(** ECMAScript WhiteSpace and LineTerminator code points, the characters
    that [String.prototype.trim] removes. *)
Definition isWhiteSpace (c : N) : bool :=
  (N.eqb c 9 || N.eqb c 10 || N.eqb c 11 || N.eqb c 12 || N.eqb c 13 ||
   N.eqb c 32 || N.eqb c 160 || N.eqb c 5760 ||
   (N.leb 8192 c && N.leb c 8202) ||
   N.eqb c 8232 || N.eqb c 8233 || N.eqb c 8239 || N.eqb c 8287 ||
   N.eqb c 12288 || N.eqb c 65279)%bool.

(** The string without its longest prefix of code units that satisfy [f]. *)
Fixpoint skipWhile (f : N -> bool) (s : jsstring) : jsstring :=
  match s with
  | c :: s' => if f c then skipWhile f s' else s
  | [] => []
  end.

Definition trimStart (s : jsstring) : jsstring := skipWhile isWhiteSpace s.

(** The string without its longest suffix of code units that satisfy [f]. *)
Definition skipWhileEnd (f : N -> bool) (s : jsstring) : jsstring :=
  rev (skipWhile f (rev s)).

Definition trimEnd (s : jsstring) : jsstring := skipWhileEnd isWhiteSpace s.

(** [s.trim()] *)
Definition trim (s : jsstring) : jsstring := trimEnd (trimStart s).

(** [s.startsWith(p)] *)
Fixpoint startsWith (s p : jsstring) : bool :=
  match p, s with
  | [], _ => true
  | y :: p', x :: s' => N.eqb x y && startsWith s' p'
  | _ :: _, [] => false
  end.

(** [s.endsWith(p)] *)
Definition endsWith (s p : jsstring) : bool := startsWith (rev s) (rev p).

(** The clamping of a relative index that [slice] does on each bound. *)
Definition clampIndex (len i : Z) : Z :=
  if (i <? 0)%Z then Z.max (len + i) 0 else Z.min i len.

(** [s.slice(from, to)] *)
Definition slice (s : jsstring) (from to : Z) : jsstring :=
  let len := length s in
  let a := clampIndex len from in
  let b := clampIndex len to in
  firstn (Z.to_nat (b - a)) (skipn (Z.to_nat a) s).

(** [s.slice(from)] *)
Definition sliceFrom (s : jsstring) (from : Z) : jsstring :=
  slice s from (length s).

(** [s.indexOf(p)]: the least position where [p] occurs, [None] for -1. *)
Fixpoint indexOf (s p : jsstring) : option nat :=
  if startsWith s p then Some 0%nat
  else match s with
       | [] => None
       | _ :: s' => option_map S (indexOf s' p)
       end.

(** [s.contains(p)], Obsidian's alias of [s.includes(p)]. *)
Definition contains (s p : jsstring) : bool :=
  match indexOf s p with Some _ => true | None => false end.

(** [s.lastIndexOf(p)]: the greatest position where [p] occurs, -1 if none. *)
Fixpoint lastIndexOfFrom (i : Z) (s p : jsstring) : Z :=
  match s with
  | [] => if startsWith [] p then i else (-1)%Z
  | _ :: s' =>
      let later := lastIndexOfFrom (i + 1) s' p in
      if (0 <=? later)%Z then later
      else if startsWith s p then i else (-1)%Z
  end.

Definition lastIndexOf (s p : jsstring) : Z := lastIndexOfFrom 0 s p.

(** [s.replace(p, "")] with a string pattern: the first occurrence of [p]
    is cut out, and [s] is returned as it is when there is none. *)
Definition replaceFirstWithEmpty (s p : jsstring) : jsstring :=
  match indexOf s p with
  | Some i => firstn i s ++ skipn (i + List.length p) s
  | None => s
  end.

(** [s.split(sep)] for a separator of one code unit. *)
Fixpoint split (sep : N) (s : jsstring) : list jsstring :=
  match s with
  | [] => [[]]
  | c :: s' =>
      if N.eqb c sep then [] :: split sep s'
      else match split sep s' with
           | part :: parts => (c :: part) :: parts
           | [] => [[c]]
           end
  end.

(** [parts.join(sep)] *)
Fixpoint join (sep : jsstring) (parts : list jsstring) : jsstring :=
  match parts with
  | [] => []
  | [p] => p
  | p :: rest => p ++ sep ++ join sep rest
  end.

End JS.

Import JS.

(* ================================================================== *)
(** ** Constants, configuration records and vault entities *)
(* ================================================================== *)

Module Config.

Record ArchiveConfig := {
  sourceFolder : jsstring;
  destFolder : jsstring;
  maintainFolderStructure : bool;
  deleteEmptyFolders : bool;
  days : Z
}.

Record AutoArchivePluginSettings := {
  archiveConfigs : list ArchiveConfig
}.

End Config.

Import Config.

Definition DEFAULT_SETTINGS : AutoArchivePluginSettings :=
  {| archiveConfigs := [] |}.

Definition MIN_DAYS : Z := 1.
Definition NUM_MS_IN_DAY : Z := 86400000.

(** What the plugin reads of Obsidian's [TFile] and [TFolder] objects. *)
Record FileStats := { ctime : Z }.

Record TFile := {
  path : jsstring;
  name : jsstring;
  stat : FileStats
}.

Inductive TAbstractFile :=
| AFile (file : TFile)
| AFolder (folder : TFolder)
with TFolder :=
| mkTFolder (folderPath folderName : jsstring) (children : list TAbstractFile).

Definition folderPathOf (d : TFolder) : jsstring :=
  match d with mkTFolder p _ _ => p end.

Definition childrenOf (d : TFolder) : list TAbstractFile :=
  match d with mkTFolder _ _ cs => cs end.

(** [entity.path] of an abstract file. *)
Definition pathOf (e : TAbstractFile) : jsstring :=
  match e with
  | AFile f => path f
  | AFolder d => folderPathOf d
  end.

(* ================================================================== *)
(** ** Path utilities *)
(* ================================================================== *)

(** [while (s.endsWith("/")) s = s.slice(0, s.length - 1)].  Every round
    shortens [s], so [length s] rounds are enough; [fuel] counts them. *)
Fixpoint stripTrailingSlashes (fuel : nat) (s : jsstring) : jsstring :=
  match fuel with
  | O => s
  | S fuel' =>
      if endsWith s [slash]
      then stripTrailingSlashes fuel' (slice s 0 (JS.length s - 1))
      else s
  end.

(** [while (s.startsWith("/")) s = s.slice(1)] *)
Fixpoint stripLeadingSlashes (fuel : nat) (s : jsstring) : jsstring :=
  match fuel with
  | O => s
  | S fuel' =>
      if startsWith s [slash]
      then stripLeadingSlashes fuel' (sliceFrom s 1)
      else s
  end.

Definition joinPaths (p1 p2 : jsstring) : jsstring :=
  let p1Trimmed := trim p1 in
  let p1Trimmed := stripTrailingSlashes (List.length p1Trimmed) p1Trimmed in
  let p2Trimmed := trim p2 in
  let p2Trimmed := stripLeadingSlashes (List.length p2Trimmed) p2Trimmed in
  let p2Trimmed := stripTrailingSlashes (List.length p2Trimmed) p2Trimmed in
  if ((JS.length p1Trimmed =? 0) && (JS.length p2Trimmed =? 0))%Z then []
  else if (JS.length p1Trimmed =? 0)%Z then p2Trimmed
  else if (JS.length p2Trimmed =? 0)%Z then p1Trimmed
  else p1Trimmed ++ [slash] ++ p2Trimmed.

Definition splitPathString (path : jsstring) : list jsstring :=
  filter (fun segment => (0 <? JS.length segment)%Z) (split slash path).

Definition getFolderFromPath (fileOrFolderPath : jsstring) : jsstring :=
  if negb (endsWith fileOrFolderPath (js ".md")) then fileOrFolderPath
  else if negb (contains fileOrFolderPath [slash]) then []
  else slice fileOrFolderPath 0 (lastIndexOf fileOrFolderPath [slash]).

(** [sourceFile.path.replace(archiveConfig.sourceFolder, "")] *)
Definition getFilePathInSourceFolder (sourceFile : TFile) (archiveConfig : ArchiveConfig)
  : jsstring :=
  replaceFirstWithEmpty (path sourceFile) (sourceFolder archiveConfig).

Definition getValidArchiveConfigs (settings : AutoArchivePluginSettings)
  : list ArchiveConfig :=
  filter (fun config =>
            (0 <? JS.length (trim (sourceFolder config)))%Z &&
            (0 <? JS.length (trim (destFolder config)))%Z)
         (archiveConfigs settings).

Definition doesFileBelongToArchiveConfig (file : TFile) (archiveConfig : ArchiveConfig)
  : bool :=
  startsWith (path file) (sourceFolder archiveConfig).

Fixpoint getMarkdownFilesInFolderRecursive (folder : TFolder) : list TFile :=
  match folder with
  | mkTFolder _ _ cs =>
      (fix eachChild (cs : list TAbstractFile) : list TFile :=
         match cs with
         | [] => []
         | child :: rest =>
             match child with
             | AFile f =>
                 if endsWith (name f) (js ".md") then f :: eachChild rest
                 else eachChild rest
             | AFolder d => getMarkdownFilesInFolderRecursive d ++ eachChild rest
             end
         end) cs
  end.

(* ================================================================== *)
(** ** Dates and the eligibility test *)
(* ================================================================== *)

(** The largest magnitude of a time value, 8.64e15 ms. *)
Definition MAX_TIME : Z := 8640000000000000.

Definition validTime (t : Z) : bool := (Z.abs t <=? MAX_TIME)%Z.

(** [new Date(t)] for a number [t]: TimeClip gives the time value, or NaN
    ([None], an invalid date) outside of the range. *)
Definition newDate (t : Z) : option Z :=
  if validTime t then Some t else None.

(** [d1 < d2] on dates: the comparison of their time values, false as soon
    as one of them is NaN. *)
Definition dateLt (d1 d2 : option Z) : bool :=
  match d1, d2 with
  | Some t1, Some t2 => (t1 <? t2)%Z
  | _, _ => false
  end.

(** [today] is the time value of [new Date()], read by the caller. *)
Definition shouldFileBeArchived (today : Z) (sourceFile : TFile)
  (archiveConfig : ArchiveConfig) : bool :=
  let createdDate := newDate (ctime (stat sourceFile)) in
  let cutoffDate := newDate (today - NUM_MS_IN_DAY * days archiveConfig) in
  dateLt createdDate cutoffDate.

(* ================================================================== *)
(** ** The host: Obsidian's vault and the clock *)
(* ================================================================== *)

(** The plugin runs against an outside world of type [H]: the vault it
    addresses by path and the clock that [new Date()] reads.  A request that
    changes the vault answers with the world after it and with whether it
    was fulfilled ([false]: the promise is rejected, the call throws). *)
Class Host (H : Type) := {
  dateNow : H -> Z;
  getAbstractFileByPath : H -> jsstring -> option TAbstractFile;
  vaultDelete : H -> TAbstractFile -> bool -> H * bool;
  vaultCopy : H -> TFile -> jsstring -> H * bool;
  vaultCreateFolder : H -> jsstring -> H * bool
}.

(** The requests the plugin sends to the vault, as they are logged. *)
Inductive Request :=
| ReqLookup (p : jsstring)
| ReqDelete (p : jsstring) (force : bool) (fulfilled : bool)
| ReqCopy (from to : jsstring) (fulfilled : bool)
| ReqCreateFolder (p : jsstring) (fulfilled : bool).

Definition isCopy (r : Request) : bool :=
  match r with ReqCopy _ _ _ => true | _ => false end.

(** The plugin's world. *)
Record World (H : Type) := {
  settings : AutoArchivePluginSettings;
  host : H;
  requests : list Request;
  console : list jsstring
}.

(** How a method call ends: with a value, or with a thrown exception. *)
Inductive Completion (A : Type) :=
| Normal (a : A)
| Thrown.

Arguments Thrown {A}.

Definition M (H A : Type) : Type := World H -> Completion A * World H.

Definition ret {H A} (a : A) : M H A := fun w => (Normal a, w).

Definition bind {H A B} (m : M H A) (k : A -> M H B) : M H B :=
  fun w =>
    match m w with
    | (Normal a, w') => k a w'
    | (Thrown, w') => (Thrown, w')
    end.

(** [try { m } catch (e) { }] *)
Definition tryCatchIgnore {H} (m : M H unit) : M H unit :=
  fun w =>
    match m w with
    | (Normal a, w') => (Normal a, w')
    | (Thrown, w') => (Normal tt, w')
    end.

Notation "x <- m ;; k" := (bind m (fun x => k))
  (at level 61, m at next level, right associativity).
Notation "m ;;; k" := (bind m (fun _ => k))
  (at level 61, right associativity).

(** [for (const x of xs) { await body(x) }] *)
Fixpoint forOf {H A} (xs : list A) (body : A -> M H unit) : M H unit :=
  match xs with
  | [] => ret tt
  | x :: rest => body x ;;; forOf rest body
  end.

Definition logRequest {H} (r : Request) (w : World H) : World H :=
  {| settings := settings w; host := host w;
     requests := requests w ++ [r]; console := console w |}.

Definition withHost {H} (h : H) (w : World H) : World H :=
  {| settings := settings w; host := h;
     requests := requests w; console := console w |}.

Definition consoleWarn {H} (msg : jsstring) : M H unit :=
  fun w => (Normal tt,
            {| settings := settings w; host := host w;
               requests := requests w; console := console w ++ [msg] |}).

Definition readSettings {H} : M H AutoArchivePluginSettings :=
  fun w => (Normal (settings w), w).

Section Engine.

Context {H : Type} `{Host H}.

(** [new Date().getTime()] *)
Definition today : M H Z := fun w => (Normal (dateNow (host w)), w).

(** [this.app.vault.getAbstractFileByPath(p)] *)
Definition lookup (p : jsstring) : M H (option TAbstractFile) :=
  fun w => (Normal (getAbstractFileByPath (host w) p), logRequest (ReqLookup p) w).

Definition settle (r : H * bool) (req : bool -> Request) : M H unit :=
  fun w =>
    let w' := logRequest (req (snd r)) (withHost (fst r) w) in
    if snd r then (Normal tt, w') else (Thrown, w').

(** [await this.app.vault.delete(e, force)] *)
Definition delete (e : TAbstractFile) (force : bool) : M H unit :=
  fun w => settle (vaultDelete (host w) e force) (ReqDelete (pathOf e) force) w.

(** [await this.app.vault.copy(file, newFilePath)] *)
Definition copy (file : TFile) (newFilePath : jsstring) : M H unit :=
  fun w => settle (vaultCopy (host w) file newFilePath)
                  (ReqCopy (path file) newFilePath) w.

(** [await this.app.vault.createFolder(p)] *)
Definition createFolder (p : jsstring) : M H unit :=
  fun w => settle (vaultCreateFolder (host w) p) (ReqCreateFolder p) w.

Definition copyFile (file : TFile) (newFilePath : jsstring) : M H unit :=
  tryCatchIgnore (copy file newFilePath).

Definition createFoldersInPath (fileOrFolderPath : jsstring) : M H unit :=
  tryCatchIgnore (createFolder (getFolderFromPath fileOrFolderPath)).

(** The body of the [for (let i = 0; i < numPathParts; i++)] loop of
    [deleteEmptyFolders], [rounds] being [numPathParts - i]; the array
    [folderPathParts] loses its last element in every round. *)
Fixpoint pruneRounds (rounds : nat) (archiveConfig : ArchiveConfig)
  (folderPathParts : list jsstring) : M H unit :=
  match rounds with
  | O => ret tt
  | S rounds' =>
      let currDirPath :=
        joinPaths (sourceFolder archiveConfig) (join [slash] folderPathParts) in
      abstractFolder <- lookup currDirPath ;;
      match abstractFolder with
      | Some (AFolder d) =>
          if (Z.of_nat (List.length (childrenOf d)) =? 0)%Z
          then delete (AFolder d) true
          else ret tt
      | _ => ret tt
      end ;;;
      pruneRounds rounds' archiveConfig (removelast folderPathParts)
  end.

Definition deleteEmptyFolders (deletedFile : TFile) (archiveConfig : ArchiveConfig)
  : M H unit :=
  let filePathInSourceFolder := getFilePathInSourceFolder deletedFile archiveConfig in
  let sourceFileFolderPath := getFolderFromPath filePathInSourceFolder in
  let folderPathParts := splitPathString sourceFileFolderPath in
  if (0 <? Z.of_nat (List.length folderPathParts))%Z then
    let numPathParts := List.length folderPathParts in
    pruneRounds numPathParts archiveConfig folderPathParts
  else ret tt.

Definition processSourceFile (sourceFile : TFile) (archiveConfig : ArchiveConfig)
  : M H unit :=
  now <- today ;;
  if shouldFileBeArchived now sourceFile archiveConfig then
    let newFilePath := destFolder archiveConfig in
    newFilePath <-
      (if maintainFolderStructure archiveConfig then
         let filePathInSourceFolder :=
           getFilePathInSourceFolder sourceFile archiveConfig in
         let newFilePath := joinPaths newFilePath filePathInSourceFolder in
         createFoldersInPath newFilePath ;;;
         ret newFilePath
       else
         ret (joinPaths newFilePath (name sourceFile))) ;;
    existingArchiveFile <- lookup newFilePath ;;
    match existingArchiveFile with
    | Some existing => delete existing false
    | None => ret tt
    end ;;;
    copyFile sourceFile newFilePath ;;;
    delete (AFile sourceFile) false ;;;
    if Config.deleteEmptyFolders archiveConfig
    then deleteEmptyFolders sourceFile archiveConfig
    else ret tt
  else ret tt.

(** The text of the warning of [processVault]; [sourceFolder?.path] prints
    as [undefined] when the lookup found nothing. *)
Definition notAFolderWarning (found : option TAbstractFile) : jsstring :=
  js "Auto Archive: Configured source [" ++
  match found with Some e => pathOf e | None => js "undefined" end ++
  js "] is not a folder".

(** One round of the loop over the archive configurations. *)
Definition processArchiveConfig (archiveConfig : ArchiveConfig) : M H unit :=
  found <- lookup (sourceFolder archiveConfig) ;;
  match found with
  | Some (AFolder d) =>
      let sourceFiles := getMarkdownFilesInFolderRecursive d in
      forOf sourceFiles (fun sourceFile => processSourceFile sourceFile archiveConfig)
  | _ => consoleWarn (notAFolderWarning found)
  end.

Definition processVault : M H unit :=
  s <- readSettings ;;
  let archiveConfigs := getValidArchiveConfigs s in
  forOf archiveConfigs processArchiveConfig.

End Engine.

(* ================================================================== *)
(** ** An in-memory vault *)
(* ================================================================== *)

(** A reference implementation of [Host], after the contract the plugin
    relies on: path-addressed lookup, recursive delete, copy that refuses an
    occupied destination or a missing parent folder, and folder creation
    that makes the missing intermediate folders and refuses a path that is
    already there.  The root folder has the path [/] and its children have
    their name as their path.  The clock stands still. *)
Module MemVault.

#[warnings="-register-all"]
Inductive Node :=
| FileNode (nodeName : jsstring) (created : Z)
| FolderNode (nodeName : jsstring) (content : list Node).

Definition nodeNameOf (n : Node) : jsstring :=
  match n with FileNode nm _ => nm | FolderNode nm _ => nm end.

Record t := {
  clock : Z;
  rootContent : list Node
}.

Definition rootPath : jsstring := [slash].

Definition childPath (parent nm : jsstring) : jsstring :=
  if JS.eqb parent rootPath then nm else parent ++ [slash] ++ nm.

(** The [TAbstractFile] object of a node that lives in the folder [parent]. *)
Fixpoint snapshot (parent : jsstring) (n : Node) : TAbstractFile :=
  match n with
  | FileNode nm c =>
      AFile {| path := childPath parent nm; name := nm; stat := {| ctime := c |} |}
  | FolderNode nm cs =>
      AFolder (mkTFolder (childPath parent nm) nm
                         (map (snapshot (childPath parent nm)) cs))
  end.

Fixpoint findChild (nm : jsstring) (l : list Node) : option Node :=
  match l with
  | [] => None
  | n :: l' => if JS.eqb (nodeNameOf n) nm then Some n else findChild nm l'
  end.

Fixpoint resolve (parent : jsstring) (segs : list jsstring) (l : list Node)
  : option TAbstractFile :=
  match segs with
  | [] => None
  | s :: rest =>
      match findChild s l with
      | None => None
      | Some n =>
          match rest with
          | [] => Some (snapshot parent n)
          | _ :: _ =>
              match n with
              | FolderNode nm cs => resolve (childPath parent nm) rest cs
              | FileNode _ _ => None
              end
          end
      end
  end.

Definition lookupPath (v : t) (p : jsstring) : option TAbstractFile :=
  if JS.eqb p rootPath
  then Some (AFolder (mkTFolder rootPath [] (map (snapshot rootPath) (rootContent v))))
  else resolve rootPath (split slash p) (rootContent v).

(** Rewrites the content of the first child called [nm], a folder. *)
Fixpoint updateChild (nm : jsstring) (f : list Node -> option (list Node))
  (l : list Node) : option (list Node) :=
  match l with
  | [] => None
  | n :: l' =>
      if JS.eqb (nodeNameOf n) nm then
        match n with
        | FolderNode nm' cs => option_map (fun cs' => FolderNode nm' cs' :: l') (f cs)
        | FileNode _ _ => None
        end
      else option_map (cons n) (updateChild nm f l')
  end.

Fixpoint removeAt (segs : list jsstring) (l : list Node) {struct segs}
  : option (list Node) :=
  match segs with
  | [] => None
  | s :: rest =>
      match rest with
      | [] =>
          match findChild s l with
          | Some _ => Some (filter (fun n => negb (JS.eqb (nodeNameOf n) s)) l)
          | None => None
          end
      | _ :: _ => updateChild s (removeAt rest) l
      end
  end.

Fixpoint insertAt (segs : list jsstring) (n : Node) (l : list Node) {struct segs}
  : option (list Node) :=
  match segs with
  | [] => None
  | s :: rest =>
      match rest with
      | [] =>
          match findChild s l with
          | Some _ => None
          | None => if (JS.length s =? 0)%Z then None else Some (l ++ [n])
          end
      | _ :: _ => updateChild s (insertAt rest n) l
      end
  end.

Fixpoint mkdirs (segs : list jsstring) (l : list Node) {struct segs}
  : option (list Node) :=
  match segs with
  | [] => None
  | s :: rest =>
      if (JS.length s =? 0)%Z then None
      else
        match rest with
        | [] =>
            match findChild s l with
            | Some _ => None
            | None => Some (l ++ [FolderNode s []])
            end
        | _ :: _ =>
            match findChild s l with
            | Some (FolderNode _ _) => updateChild s (mkdirs rest) l
            | Some (FileNode _ _) => None
            | None => option_map (fun cs => l ++ [FolderNode s cs]) (mkdirs rest [])
            end
        end
  end.

Definition answer (v : t) (r : option (list Node)) : t * bool :=
  match r with
  | Some l => ({| clock := clock v; rootContent := l |}, true)
  | None => (v, false)
  end.

Definition delete (v : t) (e : TAbstractFile) (force : bool) : t * bool :=
  if JS.eqb (pathOf e) rootPath then (v, false)
  else answer v (removeAt (split slash (pathOf e)) (rootContent v)).

Definition lastSegment (p : jsstring) : jsstring :=
  last (split slash p) [].

Definition copy (v : t) (file : TFile) (newFilePath : jsstring) : t * bool :=
  match lookupPath v (path file) with
  | Some (AFile _) =>
      answer v (insertAt (split slash newFilePath)
                         (FileNode (lastSegment newFilePath) (clock v))
                         (rootContent v))
  | _ => (v, false)
  end.

Definition createFolder (v : t) (p : jsstring) : t * bool :=
  answer v (mkdirs (split slash p) (rootContent v)).

End MemVault.

#[export] Instance MemVault_Host : Host MemVault.t := {|
  dateNow := MemVault.clock;
  getAbstractFileByPath := MemVault.lookupPath;
  vaultDelete := MemVault.delete;
  vaultCopy := MemVault.copy;
  vaultCreateFolder := MemVault.createFolder
|}.

(** A world with nothing logged yet. *)
Definition freshWorld {H} (s : AutoArchivePluginSettings) (h : H) : World H :=
  {| settings := s; host := h; requests := []; console := [] |}.

(** ** Sample data *)

Definition day (n : Z) : Z := n * NUM_MS_IN_DAY.

Definition notesRule (keep prune : bool) : ArchiveConfig :=
  {| sourceFolder := js "Notes"; destFolder := js "Archive";
     maintainFolderStructure := keep; Config.deleteEmptyFolders := prune;
     days := 30 |}.

Definition note31 : TFile :=
  {| path := js "Notes/2023/December/31.md"; name := js "31.md";
     stat := {| ctime := day 100 |} |}.

(** [Notes/2023/December/31.md] and an empty [Archive], on day 200. *)
Definition sampleVault : MemVault.t :=
  {| MemVault.clock := day 200;
     MemVault.rootContent :=
       [ MemVault.FolderNode (js "Notes")
           [ MemVault.FolderNode (js "2023")
               [ MemVault.FolderNode (js "December")
                   [ MemVault.FileNode (js "31.md") (day 100) ] ] ];
         MemVault.FolderNode (js "Archive") [] ] |}.

(** ** Vocabulary of the statements *)

Definition isSlash (c : N) : bool := N.eqb c slash.

(** A string made of whitespace only (the empty string included). *)
Definition allWhiteSpace (s : jsstring) : bool := forallb isWhiteSpace s.

(** A string made of slashes only. *)
Definition allSlashes (s : jsstring) : bool := forallb isSlash s.

(** The rule [archiveConfig] with another age threshold. *)
Definition withDays (d : Z) (archiveConfig : ArchiveConfig) : ArchiveConfig :=
  {| sourceFolder := sourceFolder archiveConfig;
     destFolder := destFolder archiveConfig;
     maintainFolderStructure := maintainFolderStructure archiveConfig;
     Config.deleteEmptyFolders := Config.deleteEmptyFolders archiveConfig;
     days := d |}.

(** How [joinPaths] puts its two cleaned arguments together. *)
Definition glue (p1 p2 : jsstring) : jsstring :=
  match p1, p2 with
  | [], [] => []
  | [], _ :: _ => p2
  | _ :: _, [] => p1
  | _ :: _, _ :: _ => p1 ++ [slash] ++ p2
  end.

(** [p] occurs in [s] at the position [i]. *)
Definition occursAt (s p : jsstring) (i : nat) : bool :=
  (i <=? List.length s)%nat && startsWith (skipn i s) p.

(** The prefix-anchored strip: what is left of [s] behind the prefix [p],
    and nothing when [s] does not begin with [p]. *)
Definition stripPrefix (s p : jsstring) : option jsstring :=
  if startsWith s p then Some (skipn (List.length p) s) else None.

(** The lookup found a folder ([found instanceof TFolder]). *)
Definition resolvesToFolder (found : option TAbstractFile) : bool :=
  match found with Some (AFolder _) => true | _ => false end.

(** Something is at the path [p]. *)
Definition present {H} `{Host H} (h : H) (p : jsstring) : bool :=
  match getAbstractFileByPath h p with Some _ => true | None => false end.

(** The world with another list of rules stored. *)
Definition setSettings {H} (s : AutoArchivePluginSettings) (w : World H) : World H :=
  {| settings := s; host := host w; requests := requests w; console := console w |}.

(** The world after the warning about the source folder of [archiveConfig]:
    one lookup is logged, one line is printed, the host is as before. *)
Definition warned {H} `{Host H} (archiveConfig : ArchiveConfig) (w : World H)
  : World H :=
  {| settings := settings w; host := host w;
     requests := requests w ++ [ReqLookup (sourceFolder archiveConfig)];
     console := console w ++
       [notAFolderWarning
          (getAbstractFileByPath (host w) (sourceFolder archiveConfig))] |}.

(** Where [processSourceFile] sends an eligible file. *)
Definition destinationOf (sourceFile : TFile) (archiveConfig : ArchiveConfig)
  : jsstring :=
  if maintainFolderStructure archiveConfig
  then joinPaths (destFolder archiveConfig)
                 (getFilePathInSourceFolder sourceFile archiveConfig)
  else joinPaths (destFolder archiveConfig) (name sourceFile).

(** What the plugin's guarantees about deletion ask of a vault: a fulfilled
    delete leaves nothing at the path of the deleted entity, and no delete,
    fulfilled or not, brings anything into being. *)
Class HostLaws (H : Type) `{Host H} : Prop := {
  delete_removes : forall h e force h',
      vaultDelete h e force = (h', true) ->
      getAbstractFileByPath h' (pathOf e) = None;
  delete_keeps_absent : forall h e force p,
      getAbstractFileByPath h p = None ->
      getAbstractFileByPath (fst (vaultDelete h e force)) p = None
}.

(** The sample vault without the [Archive] folder. *)
Definition vaultWithoutArchive : MemVault.t :=
  {| MemVault.clock := day 200;
     MemVault.rootContent :=
       [ MemVault.FolderNode (js "Notes")
           [ MemVault.FolderNode (js "2023")
               [ MemVault.FolderNode (js "December")
                   [ MemVault.FileNode (js "31.md") (day 100) ] ] ] ] |}.

(** A rule whose source folder is not in the sample vault. *)
Definition missingRule : ArchiveConfig :=
  {| sourceFolder := js "Journal"; destFolder := js "Archive";
     maintainFolderStructure := true; Config.deleteEmptyFolders := true;
     days := 30 |}.

(** A rule without a source folder, as the settings tab adds it. *)
Definition blankRule : ArchiveConfig :=
  {| sourceFolder := js "   "; destFolder := js "Archive";
     maintainFolderStructure := true; Config.deleteEmptyFolders := true;
     days := 30 |}.

(** A vault where the note lies in a folder whose name begins with a
    space, [Notes/ x], next to an empty folder [Notes/x]. *)
Definition vaultWithSpacedFolder : MemVault.t :=
  {| MemVault.clock := day 200;
     MemVault.rootContent :=
       [ MemVault.FolderNode (js "Notes")
           [ MemVault.FolderNode (js " x")
               [ MemVault.FileNode (js "a.md") (day 100) ];
             MemVault.FolderNode (js "x") [] ];
         MemVault.FolderNode (js "Archive") [] ] |}.

Definition spacedNote : TFile :=
  {| path := js "Notes/ x/a.md"; name := js "a.md";
     stat := {| ctime := day 100 |} |}.

(** A computation that neither reads nor writes the stored rules: run with
    other rules stored, it does the same and leaves those rules as stored. *)
Definition SettingsBlind {H A} (m : M H A) : Prop :=
  forall s w, m (setSettings s w) = (fst (m w), setSettings s (snd (m w))).

(** No copy request is in the list. *)
Definition noCopy (l : list Request) : bool :=
  forallb (fun r => negb (isCopy r)) l.

(** A string without a slash: the name of a file or of a folder. *)
Definition slashFree (s : jsstring) : bool :=
  forallb (fun c => negb (isSlash c)) s.

(** The string begins with a code unit that is neither whitespace nor a
    slash. *)
Definition headClean (s : jsstring) : bool :=
  match s with
  | c :: _ => negb (isWhiteSpace c) && negb (isSlash c)
  | [] => false
  end.

(** A name that [joinPaths] leaves as it is: no slash inside, and neither
    whitespace nor a slash at its two ends. *)
Definition cleanName (s : jsstring) : bool :=
  slashFree s && headClean s && headClean (rev s).

(** The folders between the source folder [src] and a file that lies in
    [src/s1/.../sn], from the deepest outwards: [src/s1/.../sn], ...,
    [src/s1]. *)
Definition foldersBetween (src : jsstring) (segs : list jsstring) : list jsstring :=
  map (fun k => src ++ [slash] ++ join [slash] (firstn k segs))
      (rev (seq 1 (List.length segs))).

(** The paths that the rounds of the prune walk look up, in order. *)
Fixpoint walkPaths (rounds : nat) (src : jsstring) (parts : list jsstring)
  : list jsstring :=
  match rounds with
  | O => []
  | S rounds' =>
      joinPaths src (join [slash] parts) :: walkPaths rounds' src (removelast parts)
  end.

(** The paths of the lookups in a list of requests. *)
Definition lookedUp (l : list Request) : list jsstring :=
  flat_map (fun r => match r with ReqLookup p => [p] | _ => [] end) l.

(** The paths of the deletes in a list of requests. *)
Definition deleted (l : list Request) : list jsstring :=
  flat_map (fun r => match r with ReqDelete p _ _ => [p] | _ => [] end) l.

Definition completedNormally {A} (c : Completion A) : bool :=
  match c with Normal _ => true | Thrown => false end.

(** The requests of a prune walk of [rounds] rounds over [parts]: every
    round looks its folder up; it goes on to the next round at once, or
    after a fulfilled delete; a refused delete ends the walk. *)
Inductive WalkLog (src : jsstring)
  : nat -> list jsstring -> bool -> list Request -> Prop :=
| WalkEnd parts :
    WalkLog src 0 parts true []
| WalkPass rounds parts ok l :
    WalkLog src rounds (removelast parts) ok l ->
    WalkLog src (S rounds) parts ok
            (ReqLookup (joinPaths src (join [slash] parts)) :: l)
| WalkDelete rounds parts p ok l :
    WalkLog src rounds (removelast parts) ok l ->
    WalkLog src (S rounds) parts ok
            (ReqLookup (joinPaths src (join [slash] parts)) ::
             ReqDelete p true true :: l)
| WalkThrow rounds parts p :
    WalkLog src (S rounds) parts false
            [ReqLookup (joinPaths src (join [slash] parts));
             ReqDelete p true false].

(* ================================================================== *)
(** ** The settings tab *)
(* ================================================================== *)

(** The callbacks of [AutoArchiveSettingTab.display] that change the
    settings.  Each callback closes over the rule it was drawn for, the
    [i]-th of the list; the list is drawn again after a rule is added or
    deleted. *)
Module SettingTab.

Definition isDigit (c : N) : bool := (N.leb 48 c && N.leb c 57)%bool.

(** [value.replace(/[^0-9]+/g, "")] *)
Definition stripNonNumbers (value : jsstring) : jsstring := filter isDigit value.

Fixpoint numberFrom (acc : Z) (digits : jsstring) : Z :=
  match digits with
  | [] => acc
  | c :: rest => numberFrom (acc * 10 + Z.of_N (c - 48)) rest
  end.

(** [Number(numbersOnly)] for a string of at most 15 decimal digits: its
    value, and 0 for the empty string.  JavaScript computes the number
    exactly below 2^53, so for these strings; it rounds longer ones, which
    this definition does not follow: what is stated with it is stated for
    texts of at most 15 digits ([exactInput]). *)
Definition Number (numbersOnly : jsstring) : Z := numberFrom 0 numbersOnly.

(** What the [onChange] callback of the "Archive After X Days" box stores
    in [config.days]. *)
Definition daysFromInput (value : jsstring) : Z :=
  let numbersOnly := stripNonNumbers value in
  let newDays := Number numbersOnly in
  if (newDays =? 0)%Z then MIN_DAYS else newDays.

(** The rule that the "Add Archive Config" button pushes. *)
Definition newArchiveConfig : ArchiveConfig :=
  {| sourceFolder := []; destFolder := [];
     maintainFolderStructure := true; Config.deleteEmptyFolders := true;
     days := 30 |}.

Definition setSourceFolder (newFolder : jsstring) (config : ArchiveConfig) :=
  {| sourceFolder := newFolder; destFolder := destFolder config;
     maintainFolderStructure := maintainFolderStructure config;
     Config.deleteEmptyFolders := Config.deleteEmptyFolders config;
     days := days config |}.

Definition setDestFolder (newFolder : jsstring) (config : ArchiveConfig) :=
  {| sourceFolder := sourceFolder config; destFolder := newFolder;
     maintainFolderStructure := maintainFolderStructure config;
     Config.deleteEmptyFolders := Config.deleteEmptyFolders config;
     days := days config |}.

Definition setMaintainFolderStructure (value : bool) (config : ArchiveConfig) :=
  {| sourceFolder := sourceFolder config; destFolder := destFolder config;
     maintainFolderStructure := value;
     Config.deleteEmptyFolders := Config.deleteEmptyFolders config;
     days := days config |}.

Definition setDeleteEmptyFolders (value : bool) (config : ArchiveConfig) :=
  {| sourceFolder := sourceFolder config; destFolder := destFolder config;
     maintainFolderStructure := maintainFolderStructure config;
     Config.deleteEmptyFolders := value;
     days := days config |}.

Definition setDays (newDays : Z) (config : ArchiveConfig) :=
  {| sourceFolder := sourceFolder config; destFolder := destFolder config;
     maintainFolderStructure := maintainFolderStructure config;
     Config.deleteEmptyFolders := Config.deleteEmptyFolders config;
     days := newDays |}.

(** The assignment to a field of the [i]-th rule. *)
Fixpoint updateAt (i : nat) (f : ArchiveConfig -> ArchiveConfig)
  (configs : list ArchiveConfig) : list ArchiveConfig :=
  match configs, i with
  | [], _ => []
  | config :: rest, O => f config :: rest
  | config :: rest, S i' => config :: updateAt i' f rest
  end.

(** [archiveConfigs.splice(i, 1)] *)
Definition splice1 (i : nat) (configs : list ArchiveConfig) : list ArchiveConfig :=
  firstn i configs ++ skipn (S i) configs.

(** What the user does in the tab. *)
Inductive Event :=
| ChangeSourceFolder (i : nat) (newFolder : jsstring)
| ChangeDestFolder (i : nat) (newFolder : jsstring)
| ToggleMaintainFolderStructure (i : nat) (value : bool)
| ToggleDeleteEmptyFolders (i : nat) (value : bool)
| ChangeDays (i : nat) (value : jsstring)
| ClickDeleteConfig (i : nat)
| ClickAddArchiveConfig.

Definition handle (e : Event) (s : AutoArchivePluginSettings)
  : AutoArchivePluginSettings :=
  let configs := archiveConfigs s in
  {| archiveConfigs :=
       match e with
       | ChangeSourceFolder i newFolder => updateAt i (setSourceFolder newFolder) configs
       | ChangeDestFolder i newFolder => updateAt i (setDestFolder newFolder) configs
       | ToggleMaintainFolderStructure i value =>
           updateAt i (setMaintainFolderStructure value) configs
       | ToggleDeleteEmptyFolders i value =>
           updateAt i (setDeleteEmptyFolders value) configs
       | ChangeDays i value => updateAt i (setDays (daysFromInput value)) configs
       | ClickDeleteConfig i => splice1 i configs
       | ClickAddArchiveConfig => configs ++ [newArchiveConfig]
       end |}.

Definition handleAll (events : list Event) (s : AutoArchivePluginSettings)
  : AutoArchivePluginSettings :=
  fold_left (fun s e => handle e s) events s.

(** The text typed into the days box has at most 15 digits. *)
Definition exactInput (e : Event) : bool :=
  match e with
  | ChangeDays _ value => (List.length (stripNonNumbers value) <=? 15)%nat
  | _ => true
  end.

End SettingTab.

(** ** More vocabulary of the statements *)

(** The file [f] lies in the folder [d], at any depth. *)
Inductive fileIn (f : TFile) : TFolder -> Prop :=
| fileHere p n cs : In (AFile f) cs -> fileIn f (mkTFolder p n cs)
| fileBelow d p n cs :
    In (AFolder d) cs -> fileIn f d -> fileIn f (mkTFolder p n cs).

(** The lookup found a folder without children. *)
Definition resolvesToEmptyFolder (found : option TAbstractFile) : bool :=
  match found with
  | Some (AFolder d) => (Z.of_nat (List.length (childrenOf d)) =? 0)%Z
  | _ => false
  end.

(** A rule is kept by [getValidArchiveConfigs]. *)
Definition validConfig (config : ArchiveConfig) : bool :=
  negb (allWhiteSpace (sourceFolder config)) &&
  negb (allWhiteSpace (destFolder config)).

Definition isDelete (r : Request) : bool :=
  match r with ReqDelete _ _ _ => true | _ => false end.

(** Two files under [Notes]; the rule below archives [Notes] into itself. *)
Definition vaultWithTwoNotes : MemVault.t :=
  {| MemVault.clock := day 200;
     MemVault.rootContent :=
       [ MemVault.FolderNode (js "Notes")
           [ MemVault.FileNode (js "a.md") (day 100);
             MemVault.FileNode (js "b.md") (day 100) ];
         MemVault.FolderNode (js "Journal")
           [ MemVault.FileNode (js "j.md") (day 100) ] ] |}.

Definition selfRule : ArchiveConfig :=
  {| sourceFolder := js "Notes"; destFolder := js "Notes";
     maintainFolderStructure := true; Config.deleteEmptyFolders := true;
     days := 30 |}.

Definition journalRule : ArchiveConfig :=
  {| sourceFolder := js "Journal"; destFolder := js "Archive";
     maintainFolderStructure := true; Config.deleteEmptyFolders := true;
     days := 30 |}.

Definition noteA : TFile :=
  {| path := js "Notes/a.md"; name := js "a.md"; stat := {| ctime := day 100 |} |}.

(** No delete in the list was refused. *)
Definition noRefusedDelete (l : list Request) : bool :=
  forallb (fun r => match r with ReqDelete _ _ false => false | _ => true end) l.

(** How a computation ends with respect to its deletes: it completes
    normally and none of the deletes it requested was refused, or it throws
    and the last request it sent is the one refused delete. *)
Definition endsAtRefusal {A} (c : Completion A) (added : list Request) : Prop :=
  if completedNormally c then noRefusedDelete added = true
  else exists before p force,
         added = before ++ [ReqDelete p force false] /\
         noRefusedDelete before = true.

Definition StopsAtRefusal {H A} (m : M H A) : Prop :=
  forall w, exists added,
    requests (snd (m w)) = requests w ++ added /\
    endsAtRefusal (fst (m w)) added.

(** The paths that the prune walk for the file [deletedFile] looks up. *)
Definition walkOf (deletedFile : TFile) (archiveConfig : ArchiveConfig)
  : list jsstring :=
  let folderPathParts :=
    splitPathString
      (getFolderFromPath (getFilePathInSourceFolder deletedFile archiveConfig)) in
  walkPaths (List.length folderPathParts) (sourceFolder archiveConfig)
            folderPathParts.

(** The world with more requests in its log. *)
Definition logged {H} (added : list Request) (w : World H) : World H :=
  {| settings := settings w; host := host w;
     requests := requests w ++ added; console := console w |}.

(** A rule whose source folder is the root of the vault. *)
Definition rootRule : ArchiveConfig :=
  {| sourceFolder := js "/"; destFolder := js "Archive";
     maintainFolderStructure := true; Config.deleteEmptyFolders := false;
     days := 30 |}.

(** A vault with the note [x/y/a.md] and an empty [Archive]. *)
Definition vaultWithNestedNote : MemVault.t :=
  {| MemVault.clock := day 200;
     MemVault.rootContent :=
       [ MemVault.FolderNode (js "x")
           [ MemVault.FolderNode (js "y")
               [ MemVault.FileNode (js "a.md") (day 100) ] ];
         MemVault.FolderNode (js "Archive") [] ] |}.

Definition nestedNote : TFile :=
  {| path := js "x/y/a.md"; name := js "a.md";
     stat := {| ctime := day 100 |} |}.

(* ================================================================== *)
(** ** JavaScript strings: lemmas *)
(* ================================================================== *)

Section SkipWhile.

Variable f : N -> bool.

Lemma skipWhile_all (w s : jsstring) :
  forallb f w = true -> skipWhile f (w ++ s) = skipWhile f s.
Proof.
  induction w as [|c w IH]; simpl; [reflexivity|].
  intros Hw. apply andb_prop in Hw. destruct Hw as [Hc Hw].
  rewrite Hc. now apply IH.
Qed.

Lemma skipWhile_split (s : jsstring) :
  exists w, forallb f w = true /\ s = w ++ skipWhile f s.
Proof.
  induction s as [|c s [w [Hw Hs]]]; simpl.
  - exists []. now split.
  - destruct (f c) eqn:Hc.
    + exists (c :: w). simpl. rewrite Hc, Hw. split; [reflexivity|].
      now rewrite <- Hs.
    + exists []. now split.
Qed.

Lemma skipWhile_head (s : jsstring) c r :
  skipWhile f s = c :: r -> f c = false.
Proof.
  induction s as [|d s IH]; simpl; [discriminate|].
  destruct (f d) eqn:Hd; [exact IH|].
  intros E. injection E as -> _. exact Hd.
Qed.

Lemma skipWhile_stop (s : jsstring) c r :
  s = c :: r -> f c = false -> skipWhile f s = s.
Proof. intros -> Hc. simpl. now rewrite Hc. Qed.

Lemma skipWhile_length (s : jsstring) :
  (List.length (skipWhile f s) <= List.length s)%nat.
Proof.
  induction s as [|c s IH]; simpl; [lia|].
  destruct (f c); simpl; lia.
Qed.

(** Appending to a string of which something is left. *)
Lemma skipWhile_app (s t : jsstring) :
  skipWhile f s <> [] -> skipWhile f (s ++ t) = skipWhile f s ++ t.
Proof.
  induction s as [|c s IH]; simpl; [congruence|].
  destruct (f c); [exact IH|reflexivity].
Qed.

Lemma skipWhile_nil_all (s : jsstring) :
  skipWhile f s = [] -> forallb f s = true.
Proof.
  induction s as [|c s IH]; simpl; [reflexivity|].
  destruct (f c); [exact IH|discriminate].
Qed.

End SkipWhile.

Lemma forallb_rev {A} (g : A -> bool) (l : list A) :
  forallb g (rev l) = forallb g l.
Proof.
  induction l as [|a l IH]; simpl; [reflexivity|].
  rewrite forallb_app, IH. simpl. rewrite andb_true_r. apply andb_comm.
Qed.

Lemma startsWith_slash (s : jsstring) :
  startsWith s [slash] = match s with c :: _ => isSlash c | [] => false end.
Proof.
  destruct s as [|c s]; [reflexivity|].
  unfold isSlash. cbn [startsWith].
  destruct s; apply andb_true_r.
Qed.

Lemma endsWith_slash (s : jsstring) :
  endsWith s [slash] = match rev s with c :: _ => isSlash c | [] => false end.
Proof. unfold endsWith. simpl. apply startsWith_slash. Qed.

Lemma sliceFrom_1 (s : jsstring) : sliceFrom s 1 = tl s.
Proof.
  unfold sliceFrom, slice, clampIndex, JS.length.
  destruct s as [|c s]; [reflexivity|].
  replace (1 <? 0)%Z with false by reflexivity.
  replace (Z.of_nat (List.length (c :: s)) <? 0)%Z with false
    by (symmetry; apply Z.ltb_ge; lia).
  rewrite Z.min_id.
  replace (Z.min 1 (Z.of_nat (List.length (c :: s)))) with 1%Z
    by (simpl List.length; lia).
  change (Z.to_nat 1) with 1%nat. simpl skipn.
  replace (Z.to_nat (Z.of_nat (List.length (c :: s)) - 1)) with (List.length s)
    by (simpl List.length; lia).
  apply firstn_all.
Qed.

Lemma slice_dropLast (s : jsstring) :
  s <> [] -> slice s 0 (JS.length s - 1) = removelast s.
Proof.
  intros Hs. unfold slice, clampIndex, JS.length.
  assert (0 < List.length s)%nat by (destruct s; simpl; [congruence|lia]).
  replace (0 <? 0)%Z with false by reflexivity.
  replace (Z.of_nat (List.length s) - 1 <? 0)%Z with false
    by (symmetry; apply Z.ltb_ge; lia).
  rewrite Z.min_l by lia. rewrite Z.min_l by lia.
  change (Z.to_nat 0) with 0%nat. simpl skipn.
  replace (Z.to_nat (Z.of_nat (List.length s) - 1 - 0))
    with (List.length s - 1)%nat by lia.
  symmetry. destruct (exists_last Hs) as [r [c ->]].
  rewrite removelast_last, length_app. simpl.
  replace (List.length r + 1 - 1)%nat with (List.length r + 0)%nat by lia.
  now rewrite firstn_app_2, app_nil_r.
Qed.

Section SkipWhileEnd.

Variable f : N -> bool.

Lemma skipWhileEnd_split (s : jsstring) :
  exists w, forallb f w = true /\ s = skipWhileEnd f s ++ w.
Proof.
  destruct (skipWhile_split f (rev s)) as [w [Hw Hs]].
  exists (rev w). split; [now rewrite forallb_rev|].
  unfold skipWhileEnd. rewrite <- rev_app_distr, <- Hs.
  now rewrite rev_involutive.
Qed.

Lemma skipWhileEnd_last (s : jsstring) c r :
  rev (skipWhileEnd f s) = c :: r -> f c = false.
Proof.
  unfold skipWhileEnd. rewrite rev_involutive. apply skipWhile_head.
Qed.

Lemma skipWhileEnd_length (s : jsstring) :
  (List.length (skipWhileEnd f s) <= List.length s)%nat.
Proof.
  unfold skipWhileEnd. rewrite length_rev.
  etransitivity; [apply skipWhile_length|]. now rewrite length_rev.
Qed.

Lemma skipWhileEnd_stop (s : jsstring) :
  match rev s with c :: _ => f c = false | [] => True end ->
  skipWhileEnd f s = s.
Proof.
  unfold skipWhileEnd. destruct (rev s) as [|c r] eqn:E; intros Hc.
  - simpl. rewrite <- (rev_involutive s), E. reflexivity.
  - rewrite (@skipWhile_stop f (c :: r) c r eq_refl Hc).
    rewrite <- E. apply rev_involutive.
Qed.

Lemma skipWhileEnd_snoc (s : jsstring) c :
  skipWhileEnd f (s ++ [c]) = if f c then skipWhileEnd f s else s ++ [c].
Proof.
  unfold skipWhileEnd. rewrite rev_app_distr. simpl.
  destruct (f c); [reflexivity|].
  simpl. now rewrite rev_involutive.
Qed.

Lemma skipWhileEnd_all (s w : jsstring) :
  forallb f w = true -> skipWhileEnd f (s ++ w) = skipWhileEnd f s.
Proof.
  intros Hw. unfold skipWhileEnd. rewrite rev_app_distr.
  rewrite skipWhile_all; [reflexivity|]. now rewrite forallb_rev.
Qed.

(** What starts with a code unit outside of [f] keeps it. *)
Lemma skipWhileEnd_keeps_head (s : jsstring) c r :
  s = c :: r -> f c = false -> exists r', skipWhileEnd f s = c :: r'.
Proof.
  intros -> Hc. revert c Hc.
  induction r as [|d r IH] using rev_ind; intros c Hc.
  - exists []. change [c] with ([] ++ [c]). rewrite skipWhileEnd_snoc.
    now rewrite Hc.
  - change (c :: r ++ [d]) with ((c :: r) ++ [d]). rewrite skipWhileEnd_snoc.
    destruct (f d).
    + now apply IH.
    + now exists (r ++ [d]).
Qed.

End SkipWhileEnd.

(** The two [while] loops of [joinPaths] end within the rounds they are
    given, with the slashes gone. *)
Lemma stripLeadingSlashes_spec (n : nat) (s : jsstring) :
  (List.length s <= n)%nat -> stripLeadingSlashes n s = skipWhile isSlash s.
Proof.
  revert s. induction n as [|n IH]; intros s Hn.
  - destruct s; [reflexivity|simpl in Hn; lia].
  - cbn [stripLeadingSlashes]. rewrite startsWith_slash, sliceFrom_1.
    destruct s as [|c s]; [reflexivity|]. simpl.
    destruct (isSlash c); [|reflexivity].
    apply IH. simpl in Hn. lia.
Qed.

Lemma stripTrailingSlashes_spec (n : nat) (s : jsstring) :
  (List.length s <= n)%nat -> stripTrailingSlashes n s = skipWhileEnd isSlash s.
Proof.
  revert s. induction n as [|n IH]; intros s Hn.
  - destruct s; [reflexivity|simpl in Hn; lia].
  - cbn [stripTrailingSlashes]. rewrite endsWith_slash.
    destruct s as [|c s] using rev_ind; [reflexivity|].
    rewrite rev_app_distr. simpl.
    rewrite skipWhileEnd_snoc.
    destruct (isSlash c); [|reflexivity].
    rewrite slice_dropLast by (destruct s; discriminate).
    rewrite removelast_last. apply IH.
    rewrite length_app in Hn. simpl in Hn. lia.
Qed.

Lemma joinPaths_glue (a b : jsstring) :
  joinPaths a b =
  glue (skipWhileEnd isSlash (trim a))
       (skipWhileEnd isSlash (skipWhile isSlash (trim b))).
Proof.
  unfold joinPaths.
  rewrite !stripTrailingSlashes_spec, !stripLeadingSlashes_spec by reflexivity.
  destruct (skipWhileEnd isSlash (trim a)) as [|c1 r1];
    destruct (skipWhileEnd isSlash (skipWhile isSlash (trim b))) as [|c2 r2];
    reflexivity.
Qed.

Lemma trim_length (s : jsstring) :
  (List.length (trim s) <= List.length s)%nat.
Proof.
  unfold trim, trimEnd, trimStart.
  etransitivity; [apply skipWhileEnd_length|apply skipWhile_length].
Qed.

Lemma no_trailing_slash_after_skip (s : jsstring) :
  endsWith (skipWhileEnd isSlash s) [slash] = false.
Proof.
  rewrite endsWith_slash.
  destruct (rev (skipWhileEnd isSlash s)) as [|c r] eqn:E; [reflexivity|].
  eapply skipWhileEnd_last; eassumption.
Qed.

Lemma no_leading_slash_after_skips (s : jsstring) :
  startsWith (skipWhileEnd isSlash (skipWhile isSlash s)) [slash] = false.
Proof.
  rewrite startsWith_slash.
  destruct (skipWhile isSlash s) as [|c r] eqn:E; [reflexivity|].
  pose proof (skipWhile_head _ _ E) as Hc.
  destruct (@skipWhileEnd_keeps_head isSlash (c :: r) c r eq_refl Hc) as [r' ->].
  exact Hc.
Qed.

Lemma endsWith_glue (p1 p2 : jsstring) :
  endsWith p1 [slash] = false -> endsWith p2 [slash] = false ->
  endsWith (glue p1 p2) [slash] = false.
Proof.
  intros H1 H2. destruct p1 as [|c1 r1], p2 as [|c2 r2]; simpl glue; auto.
  rewrite endsWith_slash in *.
  replace (rev (c1 :: r1 ++ slash :: c2 :: r2))
    with (rev (c2 :: r2) ++ rev ((c1 :: r1) ++ [slash]))
    by (rewrite <- rev_app_distr, <- app_assoc; reflexivity).
  destruct (rev (c2 :: r2)) as [|d r] eqn:E; [|exact H2].
  apply (f_equal (@List.length _)) in E. rewrite length_rev in E. discriminate.
Qed.

Lemma joinPaths_no_trailing_slash (a b : jsstring) :
  endsWith (joinPaths a b) [slash] = false.
Proof.
  rewrite joinPaths_glue.
  apply endsWith_glue; apply no_trailing_slash_after_skip.
Qed.

Lemma joinPaths_nil_r (r : jsstring) :
  joinPaths r [] = skipWhileEnd isSlash (trim r).
Proof.
  rewrite joinPaths_glue. change (trim []) with (@nil N). simpl.
  now destruct (skipWhileEnd isSlash (trim r)).
Qed.

(** C6, as amended: [joinPaths] strips the trailing slashes of its trimmed
    first argument and the leading and trailing slashes of its trimmed
    second argument, gives the empty string when nothing is left of either,
    the one that is left when one is empty, and otherwise the two with one
    slash in between; [joinPaths("", "")] is empty; and joining the result
    with the empty string once more gives the result back exactly when the
    result has no whitespace at either end. *)
Theorem joinPaths_strips_and_joins (a b : jsstring) :
  (exists p1 t1 l2 p2 t2,
      trim a = p1 ++ t1 /\ allSlashes t1 = true /\
      endsWith p1 [slash] = false /\
      trim b = l2 ++ p2 ++ t2 /\ allSlashes l2 = true /\ allSlashes t2 = true /\
      startsWith p2 [slash] = false /\ endsWith p2 [slash] = false /\
      joinPaths a b =
        match p1, p2 with
        | [], [] => []
        | [], _ :: _ => p2
        | _ :: _, [] => p1
        | _ :: _, _ :: _ => p1 ++ [slash] ++ p2
        end) /\
  (joinPaths (joinPaths a b) [] = joinPaths a b <->
   trim (joinPaths a b) = joinPaths a b) /\
  joinPaths [] [] = [].
Proof.
  split; [|split].
  - destruct (skipWhileEnd_split isSlash (trim a)) as [t1 [Ht1 Ea]].
    destruct (skipWhile_split isSlash (trim b)) as [l2 [Hl2 Eb]].
    destruct (skipWhileEnd_split isSlash (skipWhile isSlash (trim b)))
      as [t2 [Ht2 Eq]].
    exists (skipWhileEnd isSlash (trim a)), t1, l2,
      (skipWhileEnd isSlash (skipWhile isSlash (trim b))), t2.
    repeat split; try assumption.
    + apply no_trailing_slash_after_skip.
    + now rewrite <- Eq.
    + apply no_leading_slash_after_skips.
    + apply no_trailing_slash_after_skip.
    + apply joinPaths_glue.
  - rewrite joinPaths_nil_r. split; intros E.
    + destruct (skipWhileEnd_split isSlash (trim (joinPaths a b)))
        as [w [_ Hw]].
      rewrite E in Hw. pose proof (trim_length (joinPaths a b)) as L.
      rewrite Hw, length_app in L.
      destruct w; [now rewrite app_nil_r in Hw|simpl in L; lia].
    + rewrite E. apply skipWhileEnd_stop.
      pose proof (joinPaths_no_trailing_slash a b) as T.
      rewrite endsWith_slash in T.
      now destruct (rev (joinPaths a b)).
  - reflexivity.
Qed.

(** C6, the counterexample: for [a = "x /"] and [b = ""] the join is
    ["x "], and joining it with [""] again gives ["x"]. *)
Lemma joinPaths_reapplied_differs :
  joinPaths (js "x /") (js "") = js "x " /\
  joinPaths (joinPaths (js "x /") (js "")) (js "") = js "x" /\
  ~ (forall a b, joinPaths (joinPaths a b) (js "") = joinPaths a b).
Proof.
  split; [reflexivity|]. split; [reflexivity|].
  intros All. specialize (All (js "x /") (js "")). discriminate All.
Qed.

Lemma trim_padded (w1 a w2 : jsstring) :
  allWhiteSpace w1 = true -> allWhiteSpace w2 = true ->
  trim (w1 ++ a ++ w2) = trim a.
Proof.
  unfold allWhiteSpace, trim, trimEnd, trimStart. intros H1 H2.
  rewrite skipWhile_all by exact H1.
  destruct (skipWhile isWhiteSpace a) as [|c r] eqn:E.
  - apply skipWhile_nil_all in E.
    rewrite <- (app_nil_r (a ++ w2)), skipWhile_all; [reflexivity|].
    now rewrite forallb_app, E, H2.
  - rewrite skipWhile_app by (rewrite E; discriminate).
    rewrite E. now apply skipWhileEnd_all.
Qed.

Lemma joinPaths_trim (a b : jsstring) :
  trim a = trim b -> forall c, joinPaths a c = joinPaths b c /\ joinPaths c a = joinPaths c b.
Proof.
  intros E c. rewrite !joinPaths_glue, E. now split.
Qed.

(** C9: [joinPaths] drops the whitespace around both of its arguments
    before it joins them, so [joinPaths("  a  ", " b ")] is ["a/b"], and an
    argument of whitespace only counts as the empty string. *)
Theorem joinPaths_trims_whitespace (a b w1 w2 w3 w4 : jsstring) :
  allWhiteSpace w1 = true -> allWhiteSpace w2 = true ->
  allWhiteSpace w3 = true -> allWhiteSpace w4 = true ->
  joinPaths (w1 ++ a ++ w2) (w3 ++ b ++ w4) = joinPaths a b /\
  joinPaths w1 b = joinPaths [] b /\
  joinPaths a w3 = joinPaths a [] /\
  joinPaths (js "  a  ") (js " b ") = js "a/b".
Proof.
  intros H1 H2 H3 H4. repeat split.
  - destruct (@joinPaths_trim (w1 ++ a ++ w2) a (@trim_padded w1 a w2 H1 H2)
                (w3 ++ b ++ w4)) as [-> _].
    now destruct (@joinPaths_trim (w3 ++ b ++ w4) b (@trim_padded w3 b w4 H3 H4) a)
      as [_ ->].
  - apply joinPaths_trim.
    rewrite <- (app_nil_r w1). change (w1 ++ []) with (w1 ++ [] ++ []).
    now apply trim_padded.
  - apply joinPaths_trim.
    rewrite <- (app_nil_r w3). change (w3 ++ []) with (w3 ++ [] ++ []).
    now apply trim_padded.
Qed.

Lemma joinPaths_trims_whitespace_witness :
  joinPaths (js "  " ++ js "a/" ++ js " ") (js " " ++ js "/b" ++ js "  ")
  = joinPaths (js "a/") (js "/b") /\
  joinPaths (js "  ") (js "/b") = joinPaths [] (js "/b").
Proof.
  destruct (@joinPaths_trims_whitespace (js "a/") (js "/b")
              (js "  ") (js " ") (js " ") (js "  ")
              eq_refl eq_refl eq_refl eq_refl) as [E1 [E2 _]].
  split; [exact E1|exact E2].
Defined.

(* ================================================================== *)
(** ** The eligibility test *)
(* ================================================================== *)

Lemma validTime_bounds (t : Z) :
  validTime t = true <-> (- MAX_TIME <= t <= MAX_TIME)%Z.
Proof. unfold validTime. rewrite Z.leb_le. lia. Qed.

Lemma shouldFileBeArchived_true (today : Z) (f : TFile) (cfg : ArchiveConfig) :
  shouldFileBeArchived today f cfg = true <->
  validTime (ctime (stat f)) = true /\
  validTime (today - NUM_MS_IN_DAY * days cfg) = true /\
  (ctime (stat f) < today - NUM_MS_IN_DAY * days cfg)%Z.
Proof.
  unfold shouldFileBeArchived, newDate, dateLt.
  destruct (validTime (ctime (stat f)));
    destruct (validTime (today - NUM_MS_IN_DAY * days cfg));
    rewrite ?Z.ltb_lt; intuition congruence.
Qed.

(** C2: the comparison with the cutoff instant [today - days * 86400000]
    is strict.  A file created exactly at the cutoff is not eligible; a file
    created one millisecond before it is eligible (both instants being time
    values that a [Date] can hold). *)
Theorem eligibility_boundary (today : Z) (f : TFile) (cfg : ArchiveConfig) :
  (ctime (stat f) = (today - days cfg * 86400000)%Z ->
   shouldFileBeArchived today f cfg = false) /\
  (validTime (ctime (stat f)) = true ->
   validTime (today - days cfg * 86400000)%Z = true ->
   ctime (stat f) = (today - days cfg * 86400000 - 1)%Z ->
   shouldFileBeArchived today f cfg = true).
Proof.
  split.
  - intros E.
    destruct (shouldFileBeArchived today f cfg) eqn:S; [|reflexivity].
    apply shouldFileBeArchived_true in S. unfold NUM_MS_IN_DAY in S. lia.
  - intros Vc Vk E. apply shouldFileBeArchived_true. unfold NUM_MS_IN_DAY.
    replace (86400000 * days cfg)%Z with (days cfg * 86400000)%Z by lia.
    repeat split; try assumption. lia.
Qed.

Lemma eligibility_boundary_witness :
  shouldFileBeArchived (day 200)
    {| path := js "Notes/a.md"; name := js "a.md"; stat := {| ctime := day 170 |} |}
    (notesRule true true) = false /\
  shouldFileBeArchived (day 200 + 1)
    {| path := js "Notes/a.md"; name := js "a.md"; stat := {| ctime := day 170 |} |}
    (notesRule true true) = true.
Proof.
  split.
  - apply (@eligibility_boundary (day 200)
             {| path := js "Notes/a.md"; name := js "a.md";
                stat := {| ctime := day 170 |} |}
             (notesRule true true)); reflexivity.
  - apply (@eligibility_boundary (day 200 + 1)
             {| path := js "Notes/a.md"; name := js "a.md";
                stat := {| ctime := day 170 |} |}
             (notesRule true true)); reflexivity.
Defined.

(** C10: eligibility is monotone in the age threshold.  At a fixed current
    time (a time value, as [new Date()] gives it), a file that is eligible
    under a rule of [d] days is eligible under the same rule with any
    positive [d' <= d]. *)
Theorem eligibility_monotone_in_days (today : Z) (f : TFile)
  (cfg : ArchiveConfig) (d' : Z) :
  validTime today = true ->
  (0 < d' <= days cfg)%Z ->
  shouldFileBeArchived today f cfg = true ->
  shouldFileBeArchived today f (withDays d' cfg) = true.
Proof.
  intros Vt Hd S. apply shouldFileBeArchived_true in S.
  destruct S as [Vc [Vk Lt]].
  apply validTime_bounds in Vt, Vk.
  apply shouldFileBeArchived_true. simpl days.
  unfold NUM_MS_IN_DAY, MAX_TIME in *.
  split; [exact Vc|]. split; [|lia].
  apply validTime_bounds. unfold MAX_TIME. lia.
Qed.

Lemma eligibility_monotone_in_days_witness :
  shouldFileBeArchived (day 200) note31 (withDays 7 (notesRule true true)) = true.
Proof.
  apply (@eligibility_monotone_in_days (day 200) note31 (notesRule true true) 7).
  - reflexivity.
  - simpl. lia.
  - reflexivity.
Defined.

(* ================================================================== *)
(** ** The path of a file inside its source folder *)
(* ================================================================== *)

Lemma occursAt_0 (s p : jsstring) : occursAt s p 0 = startsWith s p.
Proof. reflexivity. Qed.

Lemma occursAt_S (c : N) (s p : jsstring) (i : nat) :
  occursAt (c :: s) p (S i) = occursAt s p i.
Proof. reflexivity. Qed.

Lemma indexOf_first (s p : jsstring) (i : nat) :
  indexOf s p = Some i ->
  occursAt s p i = true /\ forall j, (j < i)%nat -> occursAt s p j = false.
Proof.
  revert i. induction s as [|c s IH]; intros i; cbn [indexOf].
  - destruct (startsWith [] p) eqn:E; [|discriminate].
    intros [= <-]. split; [exact E|]. intros j Hj. lia.
  - destruct (startsWith (c :: s) p) eqn:E.
    + intros [= <-]. split; [exact E|]. intros j Hj. lia.
    + destruct (indexOf s p) as [k|]; [|discriminate].
      intros [= <-]. destruct (IH k eq_refl) as [Hk Hlt].
      split; [now rewrite occursAt_S|].
      intros [|j] Hj; [now rewrite occursAt_0|].
      rewrite occursAt_S. apply Hlt. lia.
Qed.

Lemma indexOf_none (s p : jsstring) :
  indexOf s p = None -> forall j, occursAt s p j = false.
Proof.
  induction s as [|c s IH]; cbn [indexOf].
  - destruct (startsWith [] p) eqn:E; [discriminate|].
    intros _ [|j]; [exact E|reflexivity].
  - destruct (startsWith (c :: s) p) eqn:E; [discriminate|].
    destruct (indexOf s p) as [k|]; [discriminate|].
    intros _ [|j]; [exact E|]. rewrite occursAt_S. now apply IH.
Qed.

(** C7, as amended: [getFilePathInSourceFolder] cuts the first occurrence
    of the source folder string out of the file path, wherever it is, and
    leaves the path as it is when there is none.  For a path that begins
    with the source folder string this is the prefix-anchored strip, also
    when the string occurs again further on. *)
Theorem getFilePathInSourceFolder_cuts_first_occurrence
  (sourceFile : TFile) (archiveConfig : ArchiveConfig) :
  (forall i,
      occursAt (path sourceFile) (sourceFolder archiveConfig) i = true ->
      (forall j, (j < i)%nat ->
                 occursAt (path sourceFile) (sourceFolder archiveConfig) j = false) ->
      getFilePathInSourceFolder sourceFile archiveConfig =
      firstn i (path sourceFile) ++
      skipn (i + List.length (sourceFolder archiveConfig)) (path sourceFile)) /\
  ((forall i, occursAt (path sourceFile) (sourceFolder archiveConfig) i = false) ->
   getFilePathInSourceFolder sourceFile archiveConfig = path sourceFile) /\
  (startsWith (path sourceFile) (sourceFolder archiveConfig) = true ->
   stripPrefix (path sourceFile) (sourceFolder archiveConfig) =
   Some (getFilePathInSourceFolder sourceFile archiveConfig)).
Proof.
  unfold getFilePathInSourceFolder, replaceFirstWithEmpty.
  set (s := path sourceFile). set (p := sourceFolder archiveConfig).
  assert (First : forall i, occursAt s p i = true ->
            (forall j, (j < i)%nat -> occursAt s p j = false) ->
            indexOf s p = Some i).
  { intros i Hi Hlt. destruct (indexOf s p) as [k|] eqn:E.
    - destruct (indexOf_first _ _ E) as [Hk Hklt].
      destruct (Nat.lt_trichotomy i k) as [L|[->|L]]; [|reflexivity|].
      + rewrite (Hklt i L) in Hi. discriminate.
      + rewrite (Hlt k L) in Hk. discriminate.
    - rewrite (indexOf_none _ _ E i) in Hi. discriminate. }
  split; [|split].
  - intros i Hi Hlt. now rewrite (First i Hi Hlt).
  - intros No. destruct (indexOf s p) as [k|] eqn:E; [|reflexivity].
    destruct (indexOf_first _ _ E) as [Hk _]. rewrite No in Hk. discriminate.
  - intros Pre. unfold stripPrefix. rewrite Pre.
    rewrite (First 0%nat); [reflexivity|exact Pre|intros j Hj; lia].
Qed.

Lemma getFilePathInSourceFolder_cuts_first_occurrence_witness :
  stripPrefix (path note31) (sourceFolder (notesRule true true)) =
  Some (getFilePathInSourceFolder note31 (notesRule true true)) /\
  getFilePathInSourceFolder note31 (notesRule true true) =
  firstn 0 (path note31) ++ skipn (0 + 5) (path note31).
Proof.
  destruct (getFilePathInSourceFolder_cuts_first_occurrence
              note31 (notesRule true true)) as [Cut [_ Pre]].
  split.
  - apply Pre. reflexivity.
  - apply (Cut 0%nat); [reflexivity|]. intros j Hj. lia.
Defined.

(** C7, the counterexample: in [Notes/2023/Notes/a.md] the source folder
    name [Notes] occurs at the start and again at position 11, and the
    result [/2023/Notes/a.md] is the path behind the source root all the
    same. *)
Lemma recurring_name_still_relative :
  let f := {| path := js "Notes/2023/Notes/a.md"; name := js "a.md";
              stat := {| ctime := 0 |} |} in
  let cfg := notesRule true true in
  occursAt (path f) (sourceFolder cfg) 0 = true /\
  occursAt (path f) (sourceFolder cfg) 11 = true /\
  getFilePathInSourceFolder f cfg = js "/2023/Notes/a.md" /\
  stripPrefix (path f) (sourceFolder cfg) = Some (getFilePathInSourceFolder f cfg) /\
  ~ (forall (sourceFile : TFile) (archiveConfig : ArchiveConfig) (i : nat),
        (0 < i)%nat ->
        occursAt (path sourceFile) (sourceFolder archiveConfig) i = true ->
        stripPrefix (path sourceFile) (sourceFolder archiveConfig) <>
        Some (getFilePathInSourceFolder sourceFile archiveConfig)).
Proof.
  cbv zeta. repeat split.
  intros All.
  apply (All {| path := js "Notes/2023/Notes/a.md"; name := js "a.md";
                stat := {| ctime := 0 |} |} (notesRule true true) 11%nat).
  - lia.
  - reflexivity.
  - reflexivity.
Qed.

(* ================================================================== *)
(** ** The scan: what does not depend on the vault *)
(* ================================================================== *)

Create HintDb blind.

Section Scan.

Context {H : Type} `{Host H}.

Lemma forOf_app {A} (xs ys : list A) (body : A -> M H unit) (w : World H) :
  forOf (xs ++ ys) body w =
  match forOf xs body w with
  | (Normal _, w') => forOf ys body w'
  | (Thrown, w') => (Thrown, w')
  end.
Proof.
  revert w. induction xs as [|x xs IH]; intros w; [reflexivity|].
  cbn [forOf app]. unfold bind.
  destruct (body x w) as [[[]|] w1]; [apply IH|reflexivity].
Qed.

Lemma blind_ret {A} (a : A) : SettingsBlind (@ret H A a).
Proof. intros s w. reflexivity. Qed.

Lemma blind_bind {A B} (m : M H A) (k : A -> M H B) :
  SettingsBlind m -> (forall a, SettingsBlind (k a)) -> SettingsBlind (bind m k).
Proof.
  intros Hm Hk s w. unfold bind. rewrite Hm.
  destruct (m w) as [[a|] w1]; simpl; [apply Hk|reflexivity].
Qed.

Lemma blind_tryCatchIgnore (m : M H unit) :
  SettingsBlind m -> SettingsBlind (tryCatchIgnore m).
Proof.
  intros Hm s w. unfold tryCatchIgnore. rewrite Hm.
  destruct (m w) as [[a|] w1]; reflexivity.
Qed.

Lemma blind_forOf {A} (xs : list A) (body : A -> M H unit) :
  (forall x, SettingsBlind (body x)) -> SettingsBlind (forOf xs body).
Proof.
  intros Hb. induction xs as [|x xs IH]; cbn [forOf].
  - apply blind_ret.
  - apply blind_bind; [apply Hb|intros _; exact IH].
Qed.

Lemma blind_today : SettingsBlind today.
Proof. intros s w. reflexivity. Qed.

Lemma blind_lookup (p : jsstring) : SettingsBlind (lookup p).
Proof. intros s w. reflexivity. Qed.

Lemma blind_consoleWarn (msg : jsstring) : SettingsBlind (@consoleWarn H msg).
Proof. intros s w. reflexivity. Qed.

Lemma blind_delete (e : TAbstractFile) (force : bool) : SettingsBlind (delete e force).
Proof.
  intros s w. unfold delete, settle. simpl host.
  destruct (vaultDelete (host w) e force) as [h' []]; reflexivity.
Qed.

Lemma blind_copy (f : TFile) (p : jsstring) : SettingsBlind (copy f p).
Proof.
  intros s w. unfold copy, settle. simpl host.
  destruct (vaultCopy (host w) f p) as [h' []]; reflexivity.
Qed.

Lemma blind_createFolder (p : jsstring) : SettingsBlind (createFolder p).
Proof.
  intros s w. unfold createFolder, settle. simpl host.
  destruct (vaultCreateFolder (host w) p) as [h' []]; reflexivity.
Qed.

Hint Resolve blind_ret blind_today blind_lookup blind_consoleWarn blind_delete
  blind_copy blind_createFolder blind_tryCatchIgnore : blind.

Ltac blind :=
  repeat first
    [ progress auto with blind
    | apply blind_bind; [|intros ?]
    | apply blind_forOf; intros ?
    | match goal with
      | |- SettingsBlind (if ?b then _ else _) => destruct b
      | |- SettingsBlind (match ?x with Some _ => _ | None => _ end) => destruct x
      | |- SettingsBlind (match ?x with AFile _ => _ | AFolder _ => _ end) =>
          destruct x
      end ].

Lemma blind_pruneRounds (n : nat) (cfg : ArchiveConfig) (parts : list jsstring) :
  SettingsBlind (pruneRounds n cfg parts).
Proof.
  revert parts. induction n as [|n IH]; intros parts; cbn [pruneRounds].
  - apply blind_ret.
  - apply blind_bind; [apply blind_lookup|intros found].
    apply blind_bind; [blind|intros _; apply IH].
Qed.

Lemma blind_deleteEmptyFolders (f : TFile) (cfg : ArchiveConfig) :
  SettingsBlind (deleteEmptyFolders f cfg).
Proof.
  unfold deleteEmptyFolders.
  destruct (0 <? _)%Z; [apply blind_pruneRounds|apply blind_ret].
Qed.

Lemma blind_processSourceFile (f : TFile) (cfg : ArchiveConfig) :
  SettingsBlind (processSourceFile f cfg).
Proof.
  pose proof blind_deleteEmptyFolders.
  unfold processSourceFile, copyFile, createFoldersInPath. blind.
Qed.

Lemma blind_processArchiveConfig (cfg : ArchiveConfig) :
  SettingsBlind (processArchiveConfig cfg).
Proof.
  pose proof blind_processSourceFile.
  unfold processArchiveConfig. blind.
Qed.

Lemma setSettings_same (w : World H) : setSettings (settings w) w = w.
Proof. now destruct w. Qed.

Lemma blind_keeps_settings {A} (m : M H A) (w : World H) :
  SettingsBlind m -> settings (snd (m w)) = settings w.
Proof.
  intros Hm. pose proof (Hm (settings w) w) as E.
  rewrite setSettings_same in E.
  apply (f_equal (fun r => settings (snd r))) in E. exact E.
Qed.

Lemma processVault_unfold (w : World H) :
  processVault w =
  forOf (getValidArchiveConfigs (settings w)) processArchiveConfig w.
Proof. reflexivity. Qed.

Lemma getValidArchiveConfigs_skips (l1 l2 : list ArchiveConfig) (cfg : ArchiveConfig) :
  trim (sourceFolder cfg) = [] \/ trim (destFolder cfg) = [] ->
  getValidArchiveConfigs {| archiveConfigs := l1 ++ cfg :: l2 |} =
  getValidArchiveConfigs {| archiveConfigs := l1 ++ l2 |}.
Proof.
  intros Bad. unfold getValidArchiveConfigs. cbn [archiveConfigs].
  rewrite !filter_app. cbn [filter].
  destruct Bad as [-> | ->]; [reflexivity|].
  now rewrite andb_false_r.
Qed.

End Scan.

(** C5: a rule whose source or destination folder is empty after trimming
    takes no part in a scan.  The scan ends as it does without the rule,
    with the same vault, the same requests sent and the same warnings; the
    rule is still in the stored list afterwards; and a scan of that rule
    alone sends no request at all. *)
Theorem invalid_rule_is_skipped {H} `{Host H}
  (l1 l2 : list ArchiveConfig) (cfg : ArchiveConfig) (w : World H) :
  trim (sourceFolder cfg) = [] \/ trim (destFolder cfg) = [] ->
  settings w = {| archiveConfigs := l1 ++ cfg :: l2 |} ->
  let without := setSettings {| archiveConfigs := l1 ++ l2 |} w in
  fst (processVault w) = fst (processVault without) /\
  host (snd (processVault w)) = host (snd (processVault without)) /\
  requests (snd (processVault w)) = requests (snd (processVault without)) /\
  console (snd (processVault w)) = console (snd (processVault without)) /\
  settings (snd (processVault w)) = {| archiveConfigs := l1 ++ cfg :: l2 |} /\
  (l1 = [] -> l2 = [] -> processVault w = (Normal tt, w)).
Proof.
  intros Bad Stored without.
  rewrite !processVault_unfold. subst without. cbn [settings setSettings].
  rewrite Stored, (getValidArchiveConfigs_skips l1 l2 cfg Bad).
  set (valid := getValidArchiveConfigs {| archiveConfigs := l1 ++ l2 |}).
  assert (B : SettingsBlind (forOf valid (processArchiveConfig (H := H))))
    by (apply blind_forOf; intros x; apply blind_processArchiveConfig).
  rewrite (B {| archiveConfigs := l1 ++ l2 |} w). cbn [fst snd].
  repeat split.
  - rewrite <- Stored. now apply blind_keeps_settings.
  - intros -> ->. reflexivity.
Qed.

Lemma invalid_rule_is_skipped_witness :
  let w := freshWorld
             {| archiveConfigs := [missingRule; blankRule; notesRule true true] |}
             sampleVault in
  requests (snd (processVault w)) =
  requests (snd (processVault
                   (setSettings
                      {| archiveConfigs := [missingRule; notesRule true true] |} w))) /\
  settings (snd (processVault w)) =
  {| archiveConfigs := [missingRule; blankRule; notesRule true true] |}.
Proof.
  intros w.
  destruct (@invalid_rule_is_skipped _ _ [missingRule] [notesRule true true]
              blankRule w (or_introl eq_refl) eq_refl)
    as [_ [_ [Reqs [_ [Kept _]]]]].
  split; [exact Reqs|exact Kept].
Defined.

(** C8: when the scan comes to a valid rule whose source folder is not
    found in the vault, or is found and is not a folder, it looks the path
    up, prints the warning, sends nothing else and leaves the vault as it
    is, and goes on with the rules that follow. *)
Theorem unresolved_source_is_skipped {H} `{Host H}
  (pre rest : list ArchiveConfig) (cfg : ArchiveConfig) (w w1 : World H) :
  getValidArchiveConfigs (settings w) = pre ++ cfg :: rest ->
  forOf pre processArchiveConfig w = (Normal tt, w1) ->
  resolvesToFolder (getAbstractFileByPath (host w1) (sourceFolder cfg)) = false ->
  processArchiveConfig cfg w1 = (Normal tt, warned cfg w1) /\
  processVault w = forOf rest processArchiveConfig (warned cfg w1).
Proof.
  intros Valid Before NotFolder.
  assert (Step : processArchiveConfig cfg w1 = (Normal tt, warned cfg w1)).
  { unfold processArchiveConfig, bind, lookup, warned, consoleWarn.
    cbn [logRequest settings host requests console].
    destruct (getAbstractFileByPath (host w1) (sourceFolder cfg)) as [[f|d]|];
      [reflexivity|discriminate NotFolder|reflexivity]. }
  split; [exact Step|].
  rewrite processVault_unfold, Valid, forOf_app, Before.
  cbn [forOf]. unfold bind at 1. now rewrite Step.
Qed.

Lemma unresolved_source_is_skipped_witness :
  let w := freshWorld
             {| archiveConfigs := [missingRule; notesRule true true] |}
             sampleVault in
  processArchiveConfig missingRule w = (Normal tt, warned missingRule w) /\
  processVault w =
  forOf [notesRule true true] processArchiveConfig (warned missingRule w).
Proof.
  intros w.
  apply (@unresolved_source_is_skipped _ _ [] [notesRule true true]
           missingRule w w); reflexivity.
Defined.

(* ================================================================== *)
(** ** The in-memory vault keeps the laws of deletion *)
(* ================================================================== *)

Lemma eqb_eq (a b : jsstring) : JS.eqb a b = true <-> a = b.
Proof.
  revert b. induction a as [|x a IH]; intros [|y b]; simpl;
    try (split; [discriminate|discriminate]); [tauto|].
  rewrite andb_true_iff, N.eqb_eq, IH. split.
  - intros [-> ->]. reflexivity.
  - intros [= -> ->]. tauto.
Qed.

Lemma eqb_neq (a b : jsstring) : JS.eqb a b = false <-> a <> b.
Proof.
  rewrite <- eqb_eq. destruct (JS.eqb a b); split; congruence.
Qed.

Module MemVaultFacts.

Import MemVault.

Lemma findChild_removed (s : jsstring) (l : list Node) :
  findChild s (filter (fun n => negb (JS.eqb (nodeNameOf n) s)) l) = None.
Proof.
  induction l as [|n l IH]; simpl; [reflexivity|].
  destruct (JS.eqb (nodeNameOf n) s) eqn:E; simpl; [exact IH|].
  now rewrite E.
Qed.

Lemma findChild_others (s q : jsstring) (l : list Node) :
  q <> s ->
  findChild q (filter (fun n => negb (JS.eqb (nodeNameOf n) s)) l) = findChild q l.
Proof.
  intros Hq. induction l as [|n l IH]; simpl; [reflexivity|].
  destruct (JS.eqb (nodeNameOf n) s) eqn:E; simpl.
  - apply eqb_eq in E.
    destruct (JS.eqb (nodeNameOf n) q) eqn:E'; [|exact IH].
    apply eqb_eq in E'. congruence.
  - now rewrite IH.
Qed.

(** What a fulfilled [updateChild] did: the first child called [s] was a
    folder, its content went through [g], and nothing else changed. *)
Lemma updateChild_some (s : jsstring) (g : list Node -> option (list Node))
  (l l' : list Node) :
  updateChild s g l = Some l' ->
  exists nm cs cs',
    findChild s l = Some (FolderNode nm cs) /\ g cs = Some cs' /\
    findChild s l' = Some (FolderNode nm cs') /\
    forall q, q <> s -> findChild q l' = findChild q l.
Proof.
  revert l'. induction l as [|n l IH]; intros l'; simpl; [discriminate|].
  destruct (JS.eqb (nodeNameOf n) s) eqn:E.
  - destruct n as [nm c|nm cs]; [discriminate|].
    destruct (g cs) as [cs'|] eqn:G; [|discriminate].
    intros [= <-]. exists nm, cs, cs'. simpl in *. rewrite E.
    split; [reflexivity|]. split; [exact G|]. split; [reflexivity|].
    intros q Hq. apply eqb_eq in E. subst s.
    apply not_eq_sym in Hq. apply eqb_neq in Hq. now rewrite Hq.
  - destruct (updateChild s g l) as [l1|] eqn:U; [|discriminate].
    intros [= <-]. destruct (IH l1 eq_refl) as [nm [cs [cs' [F [G [F' O]]]]]].
    exists nm, cs, cs'. simpl. rewrite E.
    split; [exact F|]. split; [exact G|]. split; [exact F'|].
    intros q Hq. now rewrite (O q Hq).
Qed.

Lemma removeAt_removes (segs : list jsstring) :
  forall (l l' : list Node) (parent : jsstring),
    removeAt segs l = Some l' -> resolve parent segs l' = None.
Proof.
  induction segs as [|s rest IH]; intros l l' parent; [discriminate|].
  destruct rest as [|t rest].
  - simpl. destruct (findChild s l); [|discriminate].
    intros [= <-]. now rewrite findChild_removed.
  - cbn [removeAt]. intros U.
    destruct (updateChild_some _ _ _ U) as [nm [cs [cs' [_ [G [F' _]]]]]].
    cbn [resolve]. rewrite F'. now apply (IH cs cs').
Qed.

Lemma removeAt_keeps_absent (segs : list jsstring) :
  forall (l l' : list Node) (parent : jsstring) (qs : list jsstring),
    removeAt segs l = Some l' ->
    resolve parent qs l = None -> resolve parent qs l' = None.
Proof.
  induction segs as [|s rest IH]; intros l l' parent qs; [discriminate|].
  destruct qs as [|q qs]; [reflexivity|].
  destruct rest as [|t rest].
  - simpl removeAt. destruct (findChild s l) eqn:F; [|discriminate].
    intros [= <-]. cbn [resolve].
    destruct (JS.eqb q s) eqn:E.
    + apply eqb_eq in E. subst q. now rewrite findChild_removed.
    + apply eqb_neq in E. now rewrite (findChild_others l E).
  - cbn [removeAt]. intros U.
    destruct (updateChild_some _ _ _ U) as [nm [cs [cs' [F [G [F' O]]]]]].
    cbn [resolve]. destruct (JS.eqb q s) eqn:E.
    + apply eqb_eq in E. subst q. rewrite F, F'.
      destruct qs as [|q' qs]; [discriminate|].
      now apply (IH cs cs').
    + apply eqb_neq in E. now rewrite (O q E).
Qed.

End MemVaultFacts.

Lemma MemVault_laws : @HostLaws MemVault.t MemVault_Host.
Proof.
  split.
  - intros h e force h'. cbn [vaultDelete getAbstractFileByPath MemVault_Host].
    unfold MemVault.delete, MemVault.lookupPath, MemVault.answer.
    destruct (JS.eqb (pathOf e) MemVault.rootPath); [discriminate|].
    destruct (MemVault.removeAt _ _) as [l'|] eqn:R; [|discriminate].
    intros [= <-]. cbn [MemVault.rootContent].
    eapply MemVaultFacts.removeAt_removes; eassumption.
  - intros h e force p. cbn [vaultDelete getAbstractFileByPath MemVault_Host].
    unfold MemVault.delete, MemVault.lookupPath, MemVault.answer.
    destruct (JS.eqb (pathOf e) MemVault.rootPath); [tauto|].
    destruct (MemVault.removeAt _ _) as [l'|] eqn:R; [|tauto].
    cbn [fst MemVault.rootContent].
    destruct (JS.eqb p MemVault.rootPath); [discriminate|].
    eapply MemVaultFacts.removeAt_keeps_absent; eassumption.
Qed.

(* ================================================================== *)
(** ** The per-file step *)
(* ================================================================== *)

Section Step.

Context {H : Type} {HH : Host H}.

Lemma copyFile_run (f : TFile) (p : jsstring) (w : World H) :
  copyFile f p w =
  (Normal tt,
   logRequest (ReqCopy (path f) p (snd (vaultCopy (host w) f p)))
              (withHost (fst (vaultCopy (host w) f p)) w)).
Proof.
  unfold copyFile, tryCatchIgnore, copy, settle.
  now destruct (snd (vaultCopy (host w) f p)).
Qed.

Lemma createFoldersInPath_run (p : jsstring) (w : World H) :
  createFoldersInPath p w =
  (Normal tt,
   logRequest
     (ReqCreateFolder (getFolderFromPath p)
        (snd (vaultCreateFolder (host w) (getFolderFromPath p))))
     (withHost (fst (vaultCreateFolder (host w) (getFolderFromPath p))) w)).
Proof.
  unfold createFoldersInPath, tryCatchIgnore, createFolder, settle.
  now destruct (snd (vaultCreateFolder (host w) (getFolderFromPath p))).
Qed.

Lemma delete_run (e : TAbstractFile) (force : bool) (w : World H) :
  delete e force w =
  (if snd (vaultDelete (host w) e force) then Normal tt else Thrown,
   logRequest (ReqDelete (pathOf e) force (snd (vaultDelete (host w) e force)))
              (withHost (fst (vaultDelete (host w) e force)) w)).
Proof.
  unfold delete, settle. now destruct (snd (vaultDelete (host w) e force)).
Qed.

(** The log of the prune walk. *)
Lemma pruneRounds_walks (n : nat) (cfg : ArchiveConfig) :
  forall (parts : list jsstring) (w : World H),
  exists added,
    requests (snd (pruneRounds n cfg parts w)) = requests w ++ added /\
    WalkLog (sourceFolder cfg) n parts
            (completedNormally (fst (pruneRounds n cfg parts w))) added.
Proof.
  induction n as [|n IH]; intros parts w; cbn [pruneRounds].
  - exists []. split; [now rewrite app_nil_r|constructor].
  - unfold bind, lookup, ret. cbn [fst snd].
    set (w1 := logRequest _ w).
    assert (Pass : exists added,
               requests (snd (pruneRounds n cfg (removelast parts) w1)) =
               requests w ++ added /\
               WalkLog (sourceFolder cfg) (S n) parts
                 (completedNormally
                    (fst (pruneRounds n cfg (removelast parts) w1))) added).
    { destruct (IH (removelast parts) w1) as [added [E W]].
      eexists (_ :: added). split; [|apply WalkPass; exact W].
      rewrite E. subst w1. cbn [logRequest requests].
      now rewrite <- app_assoc. }
    destruct (getAbstractFileByPath (host w) _) as [[f|d]|]; try exact Pass.
    destruct (Z.of_nat (List.length (childrenOf d)) =? 0)%Z; [|exact Pass].
    rewrite delete_run.
    destruct (snd (vaultDelete (host w1) (AFolder d) true)) eqn:Ok.
    + match goal with |- context [pruneRounds n cfg _ ?w2] =>
        destruct (IH (removelast parts) w2) as [added [E W]] end.
      eexists (_ :: _ :: added). split; [|apply WalkDelete; exact W].
      rewrite E. subst w1. cbn [logRequest requests withHost].
      rewrite <- !app_assoc. reflexivity.
    + eexists [_; _]. split; [|apply WalkThrow].
      subst w1. cbn [snd logRequest requests withHost].
      rewrite <- !app_assoc. reflexivity.
Qed.

Lemma WalkLog_noCopy (src : jsstring) (n : nat) (parts : list jsstring)
  (ok : bool) (l : list Request) :
  WalkLog src n parts ok l -> noCopy l = true.
Proof. induction 1; trivial. Qed.

(** The walk looks up the paths of its rounds, in order, all of them when
    it completes. *)
Lemma WalkLog_lookups (src : jsstring) (n : nat) (parts : list jsstring)
  (ok : bool) (l : list Request) :
  WalkLog src n parts ok l ->
  exists rest,
    lookedUp l ++ rest = walkPaths n src parts /\ (ok = true -> rest = []).
Proof.
  induction 1 as [parts|n parts ok l _ [rest [E Done]]
                 |n parts p ok l _ [rest [E Done]]|n parts p].
  - exists []. now split.
  - exists rest. split; [|exact Done]. unfold lookedUp in *.
    cbn [flat_map app walkPaths]. now rewrite E.
  - exists rest. split; [|exact Done]. unfold lookedUp in *.
    cbn [flat_map app walkPaths]. now rewrite E.
  - exists (walkPaths n src (removelast parts)). split; [reflexivity|discriminate].
Qed.

(** The prune walk only adds lookups and deletes to the log. *)
Lemma pruneRounds_log (n : nat) (cfg : ArchiveConfig)
  (parts : list jsstring) (w : World H) :
  exists added,
    requests (snd (pruneRounds n cfg parts w)) = requests w ++ added /\
    noCopy added = true.
Proof.
  destruct (pruneRounds_walks n cfg parts w) as [added [E W]].
  exists added. split; [exact E|]. eapply WalkLog_noCopy; eassumption.
Qed.

Lemma deleteEmptyFolders_log (f : TFile) (cfg : ArchiveConfig) (w : World H) :
  exists added,
    requests (snd (deleteEmptyFolders f cfg w)) = requests w ++ added /\
    noCopy added = true.
Proof.
  unfold deleteEmptyFolders. destruct (0 <? _)%Z.
  - apply pruneRounds_log.
  - exists []. split; [now rewrite app_nil_r|reflexivity].
Qed.

Context {HL : @HostLaws H HH}.

(** What is absent stays absent through the prune walk. *)
Lemma pruneRounds_keeps_absent (n : nat) (cfg : ArchiveConfig) (p : jsstring) :
  forall (parts : list jsstring) (w : World H),
    getAbstractFileByPath (host w) p = None ->
    getAbstractFileByPath (host (snd (pruneRounds n cfg parts w))) p = None.
Proof.
  induction n as [|n IH]; intros parts w Absent; cbn [pruneRounds].
  - exact Absent.
  - unfold bind, lookup, ret. cbn [fst snd].
    set (w1 := logRequest _ w).
    assert (A1 : getAbstractFileByPath (host w1) p = None) by exact Absent.
    destruct (getAbstractFileByPath (host w)
                (joinPaths (sourceFolder cfg) (join [slash] parts)))
      as [[f|d]|]; try (now apply IH).
    destruct (Z.of_nat (List.length (childrenOf d)) =? 0)%Z; [|now apply IH].
    rewrite delete_run.
    pose proof (delete_keeps_absent (host w1) (AFolder d) true p A1) as A2.
    destruct (snd (vaultDelete (host w1) (AFolder d) true)); [|exact A2].
    now apply IH.
Qed.

Lemma deleteEmptyFolders_keeps_absent (f : TFile) (cfg : ArchiveConfig)
  (p : jsstring) (w : World H) :
  getAbstractFileByPath (host w) p = None ->
  getAbstractFileByPath (host (snd (deleteEmptyFolders f cfg w))) p = None.
Proof.
  unfold deleteEmptyFolders. destruct (0 <? _)%Z; [|tauto].
  apply pruneRounds_keeps_absent.
Qed.

End Step.
Section Step2.
Context {H : Type} {HH : Host H} {HL : @HostLaws H HH}.

(** The step from the lookup of the destination on: clear it, copy, delete
    the source, prune. *)
Lemma archive_from_lookup (f : TFile) (cfg : ArchiveConfig) (d : jsstring)
  (found : option TAbstractFile) (w0 w' : World H) :
  bind (match found with
        | Some existing => delete existing false
        | None => ret tt
        end)
       (fun _ =>
          bind (copyFile f d)
               (fun _ =>
                  bind (delete (AFile f) false)
                       (fun _ =>
                          if Config.deleteEmptyFolders cfg
                          then deleteEmptyFolders f cfg
                          else ret tt))) w0 = (Normal tt, w') ->
  getAbstractFileByPath (host w') (path f) = None /\
  exists before okCopy after,
    requests w' =
    requests w0 ++ before ++
      ReqCopy (path f) d okCopy :: ReqDelete (path f) false true :: after /\
    noCopy before = true /\ noCopy after = true.
Proof.
  unfold bind. intros Run.
  destruct (match found with
            | Some existing => delete existing false
            | None => ret tt
            end w0) as [[[]|] wa] eqn:Clear; [|discriminate].
  assert (Cleared : exists before,
             requests wa = requests w0 ++ before /\ noCopy before = true).
  { destruct found as [existing|].
    - rewrite delete_run in Clear. injection Clear as _ <-.
      eexists [_]. split; reflexivity.
    - injection Clear as <-. exists []. split; [now rewrite app_nil_r|reflexivity]. }
  destruct Cleared as [before [Eb Nb]].
  rewrite copyFile_run, delete_run in Run.
  set (wb := logRequest _ (withHost (fst (vaultCopy (host wa) f d)) wa)) in *.
  destruct (vaultDelete (host wb) (AFile f) false) as [hd []] eqn:Del;
    cbn [fst snd] in Run; [|discriminate].
  pose proof (delete_removes _ _ _ Del) as Gone. cbn [pathOf] in Gone.
  set (wd := logRequest _ (withHost hd wb)) in *.
  assert (Ed : requests wd =
               requests w0 ++ before ++
               [ReqCopy (path f) d (snd (vaultCopy (host wa) f d));
                ReqDelete (path f) false true]).
  { subst wd wb. cbn [logRequest withHost requests pathOf].
    rewrite Eb, <- !app_assoc. reflexivity. }
  destruct (Config.deleteEmptyFolders cfg).
  - split.
    + replace w' with (snd (deleteEmptyFolders f cfg wd)) by now rewrite Run.
      now apply deleteEmptyFolders_keeps_absent.
    + destruct (deleteEmptyFolders_log f cfg wd) as [after [Ea Na]].
      rewrite Run in Ea. cbn [snd] in Ea.
      exists before, (snd (vaultCopy (host wa) f d)), after.
      rewrite Ea, Ed, <- !app_assoc.
      split; [reflexivity|]. split; assumption.
  - injection Run as <-. split; [exact Gone|].
    exists before, (snd (vaultCopy (host wa) f d)), [].
    rewrite Ed. split; [reflexivity|]. split; [exact Nb|reflexivity].
Qed.

End Step2.

(** C1: on every host that keeps the laws of deletion, when the step for
    an eligible file completes, a copy to the computed destination was
    requested once and the request to delete the
    source file follows it at once, whether the copy was fulfilled or not:
    [copyFile] never throws.  The source path then resolves to nothing, so
    the file is not both at its source and at the destination. *)
Theorem source_deleted_after_copy_attempt {H} {HH : Host H} {HL : @HostLaws H HH}
  (sourceFile : TFile) (archiveConfig : ArchiveConfig) (w w' : World H) :
  shouldFileBeArchived (dateNow (host w)) sourceFile archiveConfig = true ->
  processSourceFile sourceFile archiveConfig w = (Normal tt, w') ->
  (exists before okCopy after,
      requests w' =
      requests w ++ before ++
        ReqCopy (path sourceFile) (destinationOf sourceFile archiveConfig) okCopy ::
        ReqDelete (path sourceFile) false true :: after /\
      noCopy before = true /\ noCopy after = true) /\
  (forall w0 p, fst (copyFile sourceFile p w0) = Normal tt) /\
  getAbstractFileByPath (host w') (path sourceFile) = None /\
  present (host w') (path sourceFile) &&
  present (host w') (destinationOf sourceFile archiveConfig) = false.
Proof.
  intros Elig Run.
  assert (Gone : getAbstractFileByPath (host w') (path sourceFile) = None /\
    exists before okCopy after,
      requests w' =
      requests w ++ before ++
        ReqCopy (path sourceFile) (destinationOf sourceFile archiveConfig) okCopy ::
        ReqDelete (path sourceFile) false true :: after /\
      noCopy before = true /\ noCopy after = true).
  { unfold processSourceFile, destinationOf in *.
    unfold bind at 1 in Run. unfold today in Run. rewrite Elig in Run.
    unfold bind at 1 in Run.
    destruct (maintainFolderStructure archiveConfig).
    - unfold bind at 1 in Run. rewrite createFoldersInPath_run in Run.
      unfold ret at 1 in Run. unfold bind at 1, lookup in Run.
      apply archive_from_lookup in Run.
      destruct Run as [Gone [before [ok [after [E [Nb Na]]]]]].
      split; [exact Gone|].
      eexists (_ :: _ :: before), ok, after. split; [|split].
      + rewrite E. cbn [logRequest withHost requests].
        rewrite <- !app_assoc. reflexivity.
      + exact Nb.
      + exact Na.
    - unfold ret at 1 in Run. unfold bind at 1, lookup in Run.
      apply archive_from_lookup in Run.
      destruct Run as [Gone [before [ok [after [E [Nb Na]]]]]].
      split; [exact Gone|].
      eexists (_ :: before), ok, after. split; [|split].
      + rewrite E. cbn [logRequest withHost requests].
        rewrite <- !app_assoc. reflexivity.
      + exact Nb.
      + exact Na. }
  destruct Gone as [Gone Log].
  split; [exact Log|]. split; [|split; [exact Gone|]].
  - intros w0 p. now rewrite copyFile_run.
  - unfold present. now rewrite Gone.
Qed.

(** The witness is a run in which the copy fails: the rule flattens into
    [Archive], which is not in the vault; the note is deleted all the same. *)
Lemma source_deleted_after_copy_attempt_witness :
  let w := freshWorld {| archiveConfigs := [notesRule false true] |}
                      vaultWithoutArchive in
  let w' := snd (processSourceFile note31 (notesRule false true) w) in
  getAbstractFileByPath (host w') (path note31) = None /\
  In (ReqCopy (path note31) (js "Archive/31.md") false) (requests w') /\
  getAbstractFileByPath (host w') (js "Archive/31.md") = None.
Proof.
  intros w w'. split; [|split].
  - apply (@source_deleted_after_copy_attempt _ _ MemVault_laws
             note31 (notesRule false true) w w'); vm_compute; reflexivity.
  - vm_compute. right. left. reflexivity.
  - vm_compute. reflexivity.
Defined.

Lemma noCopy_In (l : list Request) (r : Request) :
  noCopy l = true -> In r l -> isCopy r = false.
Proof.
  unfold noCopy. rewrite forallb_forall. intros All Hr.
  apply All in Hr. now destruct (isCopy r).
Qed.

Section Destination.

Context {H : Type} {HH : Host H}.

(** From the lookup of the destination on, every copy that is requested is
    the copy of the file to the destination, however the step ends. *)
Lemma archive_from_lookup_copies (f : TFile) (cfg : ArchiveConfig) (d : jsstring)
  (found : option TAbstractFile) (w0 : World H) :
  exists added,
    requests
      (snd (bind (match found with
                  | Some existing => delete existing false
                  | None => ret tt
                  end)
                 (fun _ =>
                    bind (copyFile f d)
                         (fun _ =>
                            bind (delete (AFile f) false)
                                 (fun _ =>
                                    if Config.deleteEmptyFolders cfg
                                    then deleteEmptyFolders f cfg
                                    else ret tt))) w0))
    = requests w0 ++ added /\
    forall r, In r added -> isCopy r = true -> exists ok, r = ReqCopy (path f) d ok.
Proof.
  unfold bind.
  assert (Only : forall before okCopy okDelete after r,
             noCopy before = true -> noCopy after = true ->
             In r (before ++ ReqCopy (path f) d okCopy ::
                   ReqDelete (path f) false okDelete :: after) ->
             isCopy r = true -> exists ok, r = ReqCopy (path f) d ok).
  { intros before okCopy okDelete after r Nb Na Hr Cr.
    apply in_app_or in Hr. destruct Hr as [Hr|[<-|[<-|Hr]]].
    - rewrite (@noCopy_In _ _ Nb Hr) in Cr. discriminate.
    - now exists okCopy.
    - discriminate.
    - rewrite (@noCopy_In _ _ Na Hr) in Cr. discriminate. }
  destruct (match found with
            | Some existing => delete existing false
            | None => ret tt
            end w0) as [c wa] eqn:Clear.
  assert (Cleared : exists before,
             requests wa = requests w0 ++ before /\ noCopy before = true).
  { destruct found as [existing|].
    - rewrite delete_run in Clear. injection Clear as _ <-.
      eexists [_]. split; reflexivity.
    - injection Clear as _ <-. exists []. split; [now rewrite app_nil_r|reflexivity]. }
  destruct Cleared as [before [Eb Nb]].
  destruct c as [[]|].
  2:{ exists before. split; [exact Eb|].
      intros r Hr Cr. rewrite (@noCopy_In _ _ Nb Hr) in Cr. discriminate. }
  rewrite copyFile_run, delete_run.
  set (wb := logRequest _ (withHost (fst (vaultCopy (host wa) f d)) wa)).
  set (okDelete := snd (vaultDelete (host wb) (AFile f) false)).
  set (wd := logRequest _ (withHost _ wb)).
  assert (Ed : requests wd =
               requests w0 ++ before ++
               [ReqCopy (path f) d (snd (vaultCopy (host wa) f d));
                ReqDelete (path f) false okDelete]).
  { subst wd wb. cbn [logRequest withHost requests pathOf].
    rewrite Eb, <- !app_assoc. reflexivity. }
  destruct okDelete.
  - destruct (Config.deleteEmptyFolders cfg).
    + destruct (deleteEmptyFolders_log f cfg wd) as [after [Ea Na]].
      exists (before ++ ReqCopy (path f) d (snd (vaultCopy (host wa) f d)) ::
              ReqDelete (path f) false true :: after).
      split; [rewrite Ea, Ed, <- !app_assoc; reflexivity|].
      intros r. now apply Only.
    + exists (before ++ ReqCopy (path f) d (snd (vaultCopy (host wa) f d)) ::
              ReqDelete (path f) false true :: []).
      split; [exact Ed|]. intros r. now apply Only.
  - exists (before ++ ReqCopy (path f) d (snd (vaultCopy (host wa) f d)) ::
            ReqDelete (path f) false false :: []).
    split; [exact Ed|]. intros r. now apply Only.
Qed.

End Destination.

(** The requests of the step for an eligible file, and where the copy
    goes.  With the structure kept the destination is
    [joinPaths(destFolder, getFilePathInSourceFolder(file))], and the request
    to create its folder is sent first, before the lookup and the copy;
    flattened it is [joinPaths(destFolder, file.name)] and no folder is
    created.  No other copy is requested.  For [Notes/2023/December/31.md]
    under [Notes] and [Archive] the two destinations are
    [Archive/2023/December/31.md] and [Archive/31.md], and the first run
    makes [Archive/2023] and [Archive/2023/December]. *)
Theorem destination_of_eligible_file {H} {HH : Host H}
  (sourceFile : TFile) (archiveConfig : ArchiveConfig) (w : World H) :
  shouldFileBeArchived (dateNow (host w)) sourceFile archiveConfig = true ->
  let d :=
    if maintainFolderStructure archiveConfig
    then joinPaths (destFolder archiveConfig)
                   (getFilePathInSourceFolder sourceFile archiveConfig)
    else joinPaths (destFolder archiveConfig) (name sourceFile) in
  (exists okCreate rest,
      requests (snd (processSourceFile sourceFile archiveConfig w)) =
      requests w ++
      (if maintainFolderStructure archiveConfig
       then [ReqCreateFolder (getFolderFromPath d) okCreate] else []) ++
      ReqLookup d :: rest /\
      forall r, In r rest -> isCopy r = true ->
                exists ok, r = ReqCopy (path sourceFile) d ok) /\
  (forall sourceFile' archiveConfig',
      path sourceFile' = path sourceFile ->
      name sourceFile' = name sourceFile ->
      sourceFolder archiveConfig' = sourceFolder archiveConfig ->
      destFolder archiveConfig' = destFolder archiveConfig ->
      maintainFolderStructure archiveConfig' = maintainFolderStructure archiveConfig ->
      destinationOf sourceFile' archiveConfig' = d) /\
  (let after := host (snd (processSourceFile note31 (notesRule true false)
                             (freshWorld DEFAULT_SETTINGS sampleVault))) in
   destinationOf note31 (notesRule true false) = js "Archive/2023/December/31.md" /\
   destinationOf note31 (notesRule false false) = js "Archive/31.md" /\
   resolvesToFolder (getAbstractFileByPath sampleVault (js "Archive/2023")) = false /\
   resolvesToFolder (getAbstractFileByPath after (js "Archive/2023")) = true /\
   resolvesToFolder (getAbstractFileByPath after (js "Archive/2023/December")) = true /\
   getAbstractFileByPath after (js "Archive/2023/December/31.md") =
   Some (AFile {| path := js "Archive/2023/December/31.md"; name := js "31.md";
                  stat := {| ctime := day 200 |} |}) /\
   getAbstractFileByPath after (js "Notes/2023/December/31.md") = None).
Proof.
  intros Elig d. split; [|split].
  - unfold processSourceFile.
    unfold bind at 1. unfold today. rewrite Elig. unfold bind at 1.
    subst d. destruct (maintainFolderStructure archiveConfig).
    + unfold bind at 1. rewrite createFoldersInPath_run.
      unfold ret at 1. unfold bind at 1, lookup.
      match goal with
      | |- context [bind (match ?found with _ => _ end) _ ?w0] =>
          destruct (archive_from_lookup_copies sourceFile archiveConfig
                      (joinPaths (destFolder archiveConfig)
                         (getFilePathInSourceFolder sourceFile archiveConfig))
                      found w0) as [added [E Only]]
      end.
      eexists _, added. split; [|exact Only].
      rewrite E. cbn [logRequest withHost requests].
      rewrite <- !app_assoc. reflexivity.
    + unfold ret at 1. unfold bind at 1, lookup.
      match goal with
      | |- context [bind (match ?found with _ => _ end) _ ?w0] =>
          destruct (archive_from_lookup_copies sourceFile archiveConfig
                      (joinPaths (destFolder archiveConfig) (name sourceFile))
                      found w0) as [added [E Only]]
      end.
      exists true, added. split; [|exact Only].
      rewrite E. cbn [logRequest withHost requests].
      rewrite <- !app_assoc. reflexivity.
  - intros f' cfg' Ep En Es Ed Em. subst d.
    unfold destinationOf, getFilePathInSourceFolder.
    now rewrite Ep, En, Es, Ed, Em.
  - vm_compute. repeat split; reflexivity.
Qed.

Lemma destination_of_eligible_file_witness :
  let w := freshWorld DEFAULT_SETTINGS sampleVault in
  exists okCreate rest,
    requests (snd (processSourceFile note31 (notesRule true false) w)) =
    [ReqCreateFolder (js "Archive/2023/December") okCreate;
     ReqLookup (js "Archive/2023/December/31.md")] ++ rest /\
    forall r, In r rest -> isCopy r = true ->
              exists ok, r = ReqCopy (js "Notes/2023/December/31.md")
                                     (js "Archive/2023/December/31.md") ok.
Proof.
  intros w.
  assert (Elig : shouldFileBeArchived (dateNow (host w)) note31
                   (notesRule true false) = true) by (vm_compute; reflexivity).
  destruct (@destination_of_eligible_file _ _ note31 (notesRule true false) w
              Elig) as [Log _].
  exact Log.
Defined.

(* ================================================================== *)
(** ** Clean names and the paths of the prune walk *)
(* ================================================================== *)

Lemma headClean_inv (s : jsstring) :
  headClean s = true ->
  exists c r, s = c :: r /\ isWhiteSpace c = false /\ isSlash c = false.
Proof.
  destruct s as [|c r]; simpl; [discriminate|].
  intros E. apply andb_prop in E. destruct E as [E1 E2].
  exists c, r. repeat split.
  - now destruct (isWhiteSpace c).
  - now destruct (isSlash c).
Qed.

Lemma headClean_app (a b : jsstring) :
  headClean a = true -> headClean (a ++ b) = true.
Proof. destruct a; [discriminate|trivial]. Qed.

(** A string with clean ends passes through [trim] and through the two
    slash loops as it is. *)
Lemma clean_ends_fixed (f : N -> bool) (s : jsstring) :
  (forall c r, s = c :: r -> f c = false) ->
  (forall c r, rev s = c :: r -> f c = false) ->
  skipWhile f s = s /\ skipWhileEnd f s = s.
Proof.
  intros Hh Hl. split.
  - destruct s as [|c r]; [reflexivity|].
    apply skipWhile_stop with (c := c) (r := r); [reflexivity|].
    now apply (Hh c r).
  - apply skipWhileEnd_stop. destruct (rev s) as [|c r] eqn:E; [exact I|].
    now apply (Hl c r).
Qed.

Lemma joinPaths_clean (a b : jsstring) :
  headClean a = true -> headClean (rev a) = true ->
  headClean b = true -> headClean (rev b) = true ->
  joinPaths a b = a ++ [slash] ++ b.
Proof.
  intros Ha Ha' Hb Hb'.
  destruct (headClean_inv _ Ha) as [ca [ra [Ea [Wa Sa]]]].
  destruct (headClean_inv _ Ha') as [ca' [ra' [Ea' [Wa' Sa']]]].
  destruct (headClean_inv _ Hb) as [cb [rb [Eb [Wb Sb]]]].
  destruct (headClean_inv _ Hb') as [cb' [rb' [Eb' [Wb' Sb']]]].
  assert (Fix : forall f s c r c' r',
            s = c :: r -> f c = false -> rev s = c' :: r' -> f c' = false ->
            skipWhile f s = s /\ skipWhileEnd f s = s).
  { intros f s c r c' r' E1 F1 E2 F2. apply clean_ends_fixed.
    - intros x y E. rewrite E1 in E. now injection E as <- _.
    - intros x y E. rewrite E2 in E. now injection E as <- _. }
  destruct (Fix isWhiteSpace a _ _ _ _ Ea Wa Ea' Wa') as [Ta1 Ta2].
  destruct (Fix isSlash a _ _ _ _ Ea Sa Ea' Sa') as [_ Sa2].
  destruct (Fix isWhiteSpace b _ _ _ _ Eb Wb Eb' Wb') as [Tb1 Tb2].
  destruct (Fix isSlash b _ _ _ _ Eb Sb Eb' Sb') as [Sb1 Sb2].
  rewrite joinPaths_glue. unfold trim, trimEnd, trimStart.
  rewrite Ta1, Ta2, Sa2, Tb1, Tb2, Sb1, Sb2.
  rewrite Ea, Eb. reflexivity.
Qed.

Lemma cleanName_inv (s : jsstring) :
  cleanName s = true ->
  slashFree s = true /\ headClean s = true /\ headClean (rev s) = true.
Proof.
  unfold cleanName. intros E.
  apply andb_prop in E. destruct E as [E E3].
  apply andb_prop in E. destruct E as [E1 E2]. tauto.
Qed.

(** The join of clean names has clean ends. *)
Lemma join_clean_ends (parts : list jsstring) :
  parts <> [] -> Forall (fun s => cleanName s = true) parts ->
  headClean (join [slash] parts) = true /\
  headClean (rev (join [slash] parts)) = true.
Proof.
  induction parts as [|p rest IH]; [congruence|].
  intros _ All. inversion All as [|? ? Hp Hrest]; subst.
  destruct (cleanName_inv _ Hp) as [_ [Hh Hl]].
  destruct rest as [|q rest]; [now split|].
  destruct (IH ltac:(discriminate) Hrest) as [_ IHl].
  change (join [slash] (p :: q :: rest))
    with (p ++ [slash] ++ join [slash] (q :: rest)).
  split; [now apply headClean_app|].
  rewrite !rev_app_distr, <- app_assoc. now apply headClean_app.
Qed.

Lemma Forall_firstn {A} (P : A -> Prop) (k : nat) (l : list A) :
  Forall P l -> Forall P (firstn k l).
Proof.
  intros All. revert k. induction All as [|x l Hx _ IH]; intros [|k]; simpl;
    constructor; auto.
Qed.

Lemma walkPaths_clean (src : jsstring) (segs : list jsstring) :
  headClean src = true -> headClean (rev src) = true ->
  Forall (fun s => cleanName s = true) segs ->
  walkPaths (List.length segs) src segs = foldersBetween src segs.
Proof.
  intros Hs Hs'. induction segs as [|s segs IH] using rev_ind; intros All;
    [reflexivity|].
  apply Forall_app in All. destruct All as [All Last].
  unfold foldersBetween. rewrite length_app. simpl List.length.
  rewrite Nat.add_1_r, seq_S, rev_app_distr. simpl rev. cbn [walkPaths map app].
  rewrite removelast_last. f_equal.
  - destruct (@join_clean_ends (segs ++ [s])) as [Jh Jl].
    + destruct segs; discriminate.
    + apply Forall_app. now split.
    + rewrite joinPaths_clean by assumption.
      replace (S (List.length segs)) with (List.length (segs ++ [s]))
        by (rewrite length_app; simpl; lia).
      now rewrite firstn_all.
  - rewrite (IH All). unfold foldersBetween. apply map_ext_in.
    intros k Hk. apply in_rev, in_seq in Hk.
    rewrite firstn_app.
    replace (k - List.length segs)%nat with 0%nat by lia.
    simpl. now rewrite app_nil_r.
Qed.

(** The source folder is not one of the folders between it and the file. *)
Lemma source_not_between (src : jsstring) (segs : list jsstring) :
  ~ In src (foldersBetween src segs).
Proof.
  unfold foldersBetween. rewrite in_map_iff. intros [k [E _]].
  apply (f_equal (@List.length _)) in E.
  rewrite length_app in E. simpl in E. lia.
Qed.

Lemma slashFree_cons (c : N) (s : jsstring) :
  slashFree (c :: s) = true -> N.eqb c slash = false /\ slashFree s = true.
Proof.
  unfold slashFree, isSlash. simpl. intros E.
  apply andb_prop in E. destruct E as [E1 E2].
  split; [now destruct (N.eqb c slash)|exact E2].
Qed.

Lemma split_slashFree (s : jsstring) :
  slashFree s = true -> split slash s = [s].
Proof.
  induction s as [|c s IH]; [reflexivity|].
  intros F. apply slashFree_cons in F. destruct F as [Hc Hs].
  simpl. rewrite Hc. now rewrite IH.
Qed.

Lemma split_at_slash (a b : jsstring) :
  slashFree a = true -> split slash (a ++ slash :: b) = a :: split slash b.
Proof.
  induction a as [|c a IH]; intros F.
  - reflexivity.
  - apply slashFree_cons in F. destruct F as [Hc Ha].
    simpl. rewrite Hc. now rewrite IH.
Qed.

Lemma split_join (parts : list jsstring) :
  parts <> [] -> Forall (fun s => slashFree s = true) parts ->
  split slash (join [slash] parts) = parts.
Proof.
  induction parts as [|p rest IH]; [congruence|].
  intros _ All. inversion All as [|? ? Hp Hrest]; subst.
  destruct rest as [|q rest]; [now apply split_slashFree|].
  change (join [slash] (p :: q :: rest))
    with (p ++ slash :: join [slash] (q :: rest)).
  rewrite split_at_slash by exact Hp.
  now rewrite IH by (discriminate || exact Hrest).
Qed.

Lemma join_snoc (sep : jsstring) (parts : list jsstring) (s : jsstring) :
  parts <> [] -> join sep (parts ++ [s]) = join sep parts ++ sep ++ s.
Proof.
  induction parts as [|p rest IH]; [congruence|]. intros _.
  destruct rest as [|q rest]; [reflexivity|].
  change (join sep ((p :: q :: rest) ++ [s]))
    with (p ++ sep ++ join sep ((q :: rest) ++ [s])).
  rewrite IH by discriminate.
  change (join sep (p :: q :: rest)) with (p ++ sep ++ join sep (q :: rest)).
  now rewrite <- !app_assoc.
Qed.

Lemma lastIndexOfFrom_none (s : jsstring) (i : Z) :
  slashFree s = true -> lastIndexOfFrom i s [slash] = (-1)%Z.
Proof.
  revert i. induction s as [|c s IH]; intros i F; [reflexivity|].
  apply slashFree_cons in F. destruct F as [Hc Hs].
  cbn [lastIndexOfFrom]. rewrite IH by exact Hs. simpl. now rewrite Hc.
Qed.

Lemma lastIndexOfFrom_last (x nm : jsstring) (i : Z) :
  (0 <= i)%Z -> slashFree nm = true ->
  lastIndexOfFrom i (x ++ slash :: nm) [slash] = (i + Z.of_nat (List.length x))%Z.
Proof.
  revert i. induction x as [|c x IH]; intros i Hi F.
  - cbn [app lastIndexOfFrom]. rewrite lastIndexOfFrom_none by exact F.
    rewrite startsWith_slash. simpl. lia.
  - cbn [app lastIndexOfFrom]. rewrite IH by (lia || exact F).
    replace (0 <=? i + 1 + Z.of_nat (List.length x))%Z with true
      by (symmetry; apply Z.leb_le; lia).
    simpl List.length. lia.
Qed.

Lemma startsWith_app (s p t : jsstring) :
  startsWith s p = true -> startsWith (s ++ t) p = true.
Proof.
  revert s. induction p as [|y p IH]; intros s E.
  - now destruct (s ++ t).
  - destruct s as [|x s]; [discriminate|].
    simpl in *. apply andb_prop in E. destruct E as [E1 E2].
    rewrite E1. now rewrite IH.
Qed.

Lemma startsWith_self (s t : jsstring) : startsWith (s ++ t) s = true.
Proof.
  induction s as [|c s IH]; simpl; [now destruct t|].
  now rewrite N.eqb_refl, IH.
Qed.

Lemma endsWith_app (y s p : jsstring) :
  endsWith s p = true -> endsWith (y ++ s) p = true.
Proof.
  unfold endsWith. rewrite rev_app_distr. apply startsWith_app.
Qed.

Lemma contains_slash (x y : jsstring) : contains (x ++ slash :: y) [slash] = true.
Proof.
  unfold contains. induction x as [|c x IH]; cbn [app indexOf].
  - rewrite startsWith_slash. unfold isSlash. now rewrite N.eqb_refl.
  - destruct (startsWith (c :: x ++ slash :: y) [slash]); [reflexivity|].
    now destruct (indexOf (x ++ slash :: y) [slash]).
Qed.

Lemma slice_prefix (x y : jsstring) :
  slice (x ++ y) 0 (Z.of_nat (List.length x)) = x.
Proof.
  unfold slice, clampIndex, JS.length. rewrite length_app.
  replace (0 <? 0)%Z with false by reflexivity.
  replace (Z.of_nat (List.length x) <? 0)%Z with false
    by (symmetry; apply Z.ltb_ge; lia).
  rewrite !Z.min_l by lia.
  change (Z.to_nat 0) with 0%nat. simpl skipn.
  replace (Z.to_nat (Z.of_nat (List.length x) - 0)) with (List.length x + 0)%nat
    by lia.
  now rewrite firstn_app_2, app_nil_r.
Qed.

(** The folder part of the path of a markdown file. *)
Lemma getFolderFromPath_file (x nm : jsstring) :
  slashFree nm = true -> endsWith nm (js ".md") = true ->
  getFolderFromPath (x ++ slash :: nm) = x.
Proof.
  intros F Md. unfold getFolderFromPath.
  replace (endsWith (x ++ slash :: nm) (js ".md")) with true
    by (symmetry; change (x ++ slash :: nm) with (x ++ [slash] ++ nm);
        rewrite app_assoc; now apply endsWith_app).
  rewrite contains_slash. cbn [negb].
  unfold lastIndexOf. rewrite lastIndexOfFrom_last by (lia || exact F).
  apply slice_prefix.
Qed.

Lemma replaceFirstWithEmpty_prefix (p rest : jsstring) :
  replaceFirstWithEmpty (p ++ rest) p = rest.
Proof.
  unfold replaceFirstWithEmpty.
  replace (indexOf (p ++ rest) p) with (Some 0%nat).
  - simpl. rewrite skipn_app, Nat.sub_diag, skipn_all. reflexivity.
  - destruct (p ++ rest) eqn:E; cbn [indexOf]; rewrite <- E;
      now rewrite startsWith_self.
Qed.

(** The segments that [deleteEmptyFolders] walks over, for a file that
    lies under the source folder in folders with clean names. *)
Lemma parts_of_clean_path (f : TFile) (cfg : ArchiveConfig)
  (segs : list jsstring) (nm : jsstring) :
  path f = sourceFolder cfg ++ [slash] ++ join [slash] (segs ++ [nm]) ->
  Forall (fun s => cleanName s = true) segs ->
  slashFree nm = true -> endsWith nm (js ".md") = true ->
  splitPathString (getFolderFromPath (getFilePathInSourceFolder f cfg)) = segs.
Proof.
  intros Ep All F Md. unfold getFilePathInSourceFolder.
  rewrite Ep, replaceFirstWithEmpty_prefix.
  destruct segs as [|s segs].
  - change ([slash] ++ join [slash] ([] ++ [nm])) with ([] ++ slash :: nm).
    now rewrite getFolderFromPath_file.
  - rewrite join_snoc by discriminate.
    change ([slash] ++ join [slash] (s :: segs) ++ [slash] ++ nm)
      with ((slash :: join [slash] (s :: segs)) ++ slash :: nm).
    rewrite getFolderFromPath_file by assumption.
    unfold splitPathString. cbn [split]. rewrite N.eqb_refl.
    rewrite split_join.
    + change (filter (fun segment => (0 <? JS.length segment)%Z)
                ([] :: s :: segs))
        with (filter (fun segment => (0 <? JS.length segment)%Z) (s :: segs)).
      apply forallb_filter_id. apply forallb_forall. intros x Hx.
      rewrite Forall_forall in All. apply All, cleanName_inv in Hx.
      destruct Hx as [_ [Hh _]]. destruct x; [discriminate|reflexivity].
    + discriminate.
    + eapply Forall_impl; [|exact All]. intros x Hx.
      now apply cleanName_inv in Hx.
Qed.

(** X20: the prune walk on a clean path.  For a markdown file that lies under
    the source folder in folders with clean names, and a source folder with
    clean ends, the walk looks up the folders between the source folder and
    the file, from the deepest outwards, all of them when it completes; it
    never looks up the source folder. *)
Lemma prune_walk_on_clean_path {H} {HH : Host H}
  (f : TFile) (cfg : ArchiveConfig) (segs : list jsstring) (nm : jsstring)
  (w : World H) :
  path f = sourceFolder cfg ++ [slash] ++ join [slash] (segs ++ [nm]) ->
  headClean (sourceFolder cfg) = true ->
  headClean (rev (sourceFolder cfg)) = true ->
  Forall (fun s => cleanName s = true) segs ->
  slashFree nm = true -> endsWith nm (js ".md") = true ->
  exists added rest,
    requests (snd (deleteEmptyFolders f cfg w)) = requests w ++ added /\
    lookedUp added ++ rest = foldersBetween (sourceFolder cfg) segs /\
    (fst (deleteEmptyFolders f cfg w) = Normal tt -> rest = []) /\
    ~ In (sourceFolder cfg) (lookedUp added).
Proof.
  intros Ep Hs Hs' All F Md. unfold deleteEmptyFolders.
  rewrite (@parts_of_clean_path f cfg segs nm Ep All F Md).
  destruct segs as [|s segs].
  - exists [], []. cbn. rewrite app_nil_r. repeat split. tauto.
  - replace (0 <? Z.of_nat (List.length (s :: segs)))%Z with true
      by (symmetry; apply Z.ltb_lt; simpl List.length; lia).
    destruct (pruneRounds_walks (List.length (s :: segs)) cfg (s :: segs) w)
      as [added [E W]].
    destruct (WalkLog_lookups W) as [rest [L Done]].
    rewrite walkPaths_clean in L by assumption.
    exists added, rest. split; [exact E|]. split; [exact L|]. split.
    + intros N. apply Done. now rewrite N.
    + intros In1.
      apply (@source_not_between (sourceFolder cfg) (s :: segs)).
      rewrite <- L. apply in_or_app. now left.
Qed.

(** The note of the sample vault lies on a clean path: its walk looks up
    [Notes/2023/December] and then [Notes/2023]. *)
Lemma prune_walk_of_the_sample :
  foldersBetween (js "Notes") [js "2023"; js "December"] =
  [js "Notes/2023/December"; js "Notes/2023"] /\
  lookedUp (requests (snd (deleteEmptyFolders note31 (notesRule true true)
                             (freshWorld DEFAULT_SETTINGS sampleVault)))) =
  foldersBetween (js "Notes") [js "2023"; js "December"].
Proof. vm_compute. split; reflexivity. Qed.

(* ================================================================== *)
(** ** The prune walk *)
(* ================================================================== *)

(** C3, at the failing input: the note [Notes/ x/a.md] is archived under
    the rule for [Notes] with pruning on.  The walk should look at
    [Notes/ x], the one folder between the source folder and the note;
    [joinPaths] trims the segment, so it looks at [Notes/x], which is an
    empty folder beside it, and deletes that one.  The folder [Notes/ x],
    now empty, stays. *)
Theorem prune_walk_leaves_the_path_of_the_file :
  let w := freshWorld {| archiveConfigs := [notesRule true true] |}
                      vaultWithSpacedFolder in
  getFilePathInSourceFolder spacedNote (notesRule true true) = js "/ x/a.md" /\
  splitPathString
    (getFolderFromPath (getFilePathInSourceFolder spacedNote (notesRule true true)))
  = [js " x"] /\
  joinPaths (js "Notes") (join [slash] [js " x"]) = js "Notes/x" /\
  foldersBetween (js "Notes") [js " x"] = [js "Notes/ x"] /\
  lookedUp (requests (snd (deleteEmptyFolders spacedNote (notesRule true true)
                             (freshWorld DEFAULT_SETTINGS vaultWithSpacedFolder))))
  = [js "Notes/x"] /\
  fst (processVault w) = Normal tt /\
  requests (snd (processVault w)) =
  [ ReqLookup (js "Notes");
    ReqCreateFolder (js "Archive/ x") true;
    ReqLookup (js "Archive/ x/a.md");
    ReqCopy (js "Notes/ x/a.md") (js "Archive/ x/a.md") true;
    ReqDelete (js "Notes/ x/a.md") false true;
    ReqLookup (js "Notes/x");
    ReqDelete (js "Notes/x") true true ] /\
  MemVault.rootContent (host (snd (processVault w))) =
  [ MemVault.FolderNode (js "Notes") [ MemVault.FolderNode (js " x") [] ];
    MemVault.FolderNode (js "Archive")
      [ MemVault.FolderNode (js " x")
          [ MemVault.FileNode (js "a.md") (day 200) ] ] ].
Proof.
  vm_compute. repeat split; reflexivity.
Qed.

(* ================================================================== *)
(** ** More about the path utilities *)
(* ================================================================== *)

Lemma split_not_nil (s : jsstring) : split slash s <> [].
Proof.
  destruct s as [|c s]; simpl; [discriminate|].
  destruct (N.eqb c slash); [discriminate|].
  destruct (split slash s); discriminate.
Qed.

Lemma split_parts_slashFree (s : jsstring) :
  Forall (fun part => slashFree part = true) (split slash s).
Proof.
  induction s as [|c s IH]; simpl; [now repeat constructor|].
  destruct (N.eqb c slash) eqn:E; [now constructor|].
  destruct (split slash s) as [|part parts].
  - constructor; [|constructor]. unfold slashFree, isSlash. simpl. now rewrite E.
  - inversion IH as [|? ? Hp Hps]; subst. constructor; [|exact Hps].
    unfold slashFree, isSlash in *. simpl. now rewrite E.
Qed.

Lemma split_app_slash (a b : jsstring) :
  split slash (a ++ slash :: b) = split slash a ++ split slash b.
Proof.
  induction a as [|c a IH]; [reflexivity|].
  cbn [app split]. rewrite IH.
  destruct (N.eqb c slash); [reflexivity|].
  pose proof (split_not_nil a) as NN.
  destruct (split slash a) as [|part parts]; [congruence|reflexivity].
Qed.

(** X1: [splitPathString] gives names: no segment is empty and no segment
    has a slash in it. *)
Theorem splitPathString_gives_names (p : jsstring) :
  Forall (fun segment => segment <> [] /\ slashFree segment = true)
         (splitPathString p).
Proof.
  unfold splitPathString. apply Forall_forall. intros x Hx.
  apply filter_In in Hx. destruct Hx as [Hx Len].
  split.
  - intros ->. discriminate Len.
  - pose proof (split_parts_slashFree p) as All.
    rewrite Forall_forall in All. now apply All.
Qed.

(** X2: a slash in the path only separates.  The segments of [a/b] are
    those of [a] followed by those of [b], so slashes at the start, at the
    end or in a row add nothing. *)
Theorem splitPathString_at_slash (a b : jsstring) :
  splitPathString (a ++ [slash] ++ b) = splitPathString a ++ splitPathString b /\
  splitPathString ([slash] ++ a) = splitPathString a /\
  splitPathString (a ++ [slash]) = splitPathString a /\
  splitPathString (a ++ [slash] ++ [slash] ++ b) = splitPathString (a ++ [slash] ++ b).
Proof.
  assert (At : forall x y,
             splitPathString (x ++ [slash] ++ y) =
             splitPathString x ++ splitPathString y).
  { intros x y. unfold splitPathString.
    change (x ++ [slash] ++ y) with (x ++ slash :: y).
    now rewrite split_app_slash, filter_app. }
  split; [apply At|]. split; [|split].
  - change ([slash] ++ a) with ([] ++ [slash] ++ a). now rewrite At.
  - change (a ++ [slash]) with (a ++ [slash] ++ []). rewrite At.
    apply app_nil_r.
  - rewrite !At.
    change ([slash] ++ b) with ([] ++ [slash] ++ b). now rewrite At.
Qed.

(** X3: splitting is the inverse of joining names with slashes. *)
Theorem splitPathString_of_join (segs : list jsstring) :
  Forall (fun segment => segment <> [] /\ slashFree segment = true) segs ->
  splitPathString (join [slash] segs) = segs.
Proof.
  intros All. destruct segs as [|s segs]; [reflexivity|].
  unfold splitPathString. rewrite split_join.
  - apply forallb_filter_id, forallb_forall. intros x Hx.
    rewrite Forall_forall in All. destruct (All x Hx) as [NE _].
    destruct x; [congruence|reflexivity].
  - discriminate.
  - eapply Forall_impl; [|exact All]. now intros x [_ Hx].
Qed.

Lemma splitPathString_of_join_witness :
  splitPathString (join [slash] [js "2023"; js "December"]) =
  [js "2023"; js "December"].
Proof.
  apply splitPathString_of_join.
  repeat constructor; discriminate.
Defined.

Lemma contains_slashFree (s : jsstring) :
  slashFree s = true -> contains s [slash] = false.
Proof.
  unfold contains. induction s as [|c s IH]; intros F; [reflexivity|].
  apply slashFree_cons in F. destruct F as [Hc Hs].
  cbn [indexOf]. rewrite startsWith_slash. unfold isSlash. rewrite Hc.
  specialize (IH Hs). now destruct (indexOf s [slash]).
Qed.

(** X4: [getFolderFromPath].  A path that does not end in [.md] comes back
    as it is; a bare markdown file name gives the empty string; and for
    [folder/name.md] the result is [folder], whatever slashes [folder] has
    in it. *)
Theorem getFolderFromPath_cases (p folder nm : jsstring) :
  (endsWith p (js ".md") = false -> getFolderFromPath p = p) /\
  (endsWith p (js ".md") = true -> slashFree p = true ->
   getFolderFromPath p = []) /\
  (endsWith nm (js ".md") = true -> slashFree nm = true ->
   getFolderFromPath (folder ++ [slash] ++ nm) = folder).
Proof.
  split; [|split].
  - intros E. unfold getFolderFromPath. now rewrite E.
  - intros E F. unfold getFolderFromPath.
    now rewrite E, (contains_slashFree _ F).
  - intros E F. now apply getFolderFromPath_file.
Qed.

Lemma getFolderFromPath_cases_witness :
  getFolderFromPath (js "Archive/2023" ++ [slash] ++ js "31.md") = js "Archive/2023" /\
  getFolderFromPath (js "31.md") = [] /\
  getFolderFromPath (js "Archive/2023") = js "Archive/2023".
Proof.
  split; [|split].
  - apply (getFolderFromPath_cases [] (js "Archive/2023") (js "31.md"));
      reflexivity.
  - apply (getFolderFromPath_cases (js "31.md") [] []); reflexivity.
  - apply (getFolderFromPath_cases (js "Archive/2023") [] []); reflexivity.
Defined.

Lemma skipWhile_nil_iff (f : N -> bool) (s : jsstring) :
  skipWhile f s = [] <-> forallb f s = true.
Proof.
  split; [apply skipWhile_nil_all|].
  intros All. rewrite <- (app_nil_r s). now rewrite skipWhile_all.
Qed.

Lemma both_skips_nil (f : N -> bool) (s : jsstring) :
  skipWhileEnd f (skipWhile f s) = [] <-> forallb f s = true.
Proof.
  rewrite <- skipWhile_nil_iff. split.
  - intros E. destruct (skipWhile f s) as [|c r] eqn:Q; [reflexivity|].
    pose proof (skipWhile_head _ _ Q) as Hc.
    destruct (@skipWhileEnd_keeps_head f (c :: r) c r eq_refl Hc) as [r' E'].
    congruence.
  - intros ->. reflexivity.
Qed.

Lemma skipWhileEnd_nil_iff (f : N -> bool) (s : jsstring) :
  skipWhileEnd f s = [] <-> forallb f s = true.
Proof.
  unfold skipWhileEnd. rewrite <- (forallb_rev f s), <- skipWhile_nil_iff.
  split; intros E.
  - apply (f_equal (@rev N)) in E. now rewrite rev_involutive in E.
  - now rewrite E.
Qed.

(** X5: what [joinPaths] gives never ends in a slash, and it is the empty
    string only when each argument, trimmed, is made of slashes (or is
    empty). *)
Theorem joinPaths_result (a b : jsstring) :
  endsWith (joinPaths a b) [slash] = false /\
  (joinPaths a b = [] <->
   allSlashes (trim a) = true /\ allSlashes (trim b) = true).
Proof.
  split.
  - rewrite joinPaths_glue.
    apply endsWith_glue; apply no_trailing_slash_after_skip.
  - rewrite joinPaths_glue. unfold allSlashes.
    rewrite <- (skipWhileEnd_nil_iff isSlash (trim a)).
    rewrite <- (both_skips_nil isSlash (trim b)).
    destruct (skipWhileEnd isSlash (trim a)) as [|c1 r1];
      destruct (skipWhileEnd isSlash (skipWhile isSlash (trim b))) as [|c2 r2];
      simpl; split; try tauto; try discriminate;
      intros [E1 E2]; discriminate.
Qed.

Lemma trim_nil_iff (s : jsstring) : trim s = [] <-> allWhiteSpace s = true.
Proof. unfold trim, trimEnd, trimStart. apply both_skips_nil. Qed.

(** X6: a rule is valid exactly when each of its two folder strings has a
    code unit that is not whitespace; [getValidArchiveConfigs] keeps these
    rules, in their order. *)
Theorem getValidArchiveConfigs_keeps_visible (s : AutoArchivePluginSettings) :
  getValidArchiveConfigs s = filter validConfig (archiveConfigs s) /\
  getValidArchiveConfigs {| archiveConfigs := getValidArchiveConfigs s |} =
  getValidArchiveConfigs s.
Proof.
  assert (Same : forall l,
             filter (fun config =>
                       (0 <? JS.length (trim (sourceFolder config)))%Z &&
                       (0 <? JS.length (trim (destFolder config)))%Z) l =
             filter validConfig l).
  { intros l. apply filter_ext. intros c. unfold validConfig.
    assert (T : forall x, (0 <? JS.length (trim x))%Z = negb (allWhiteSpace x)).
    { intros x. destruct (allWhiteSpace x) eqn:W.
      - apply trim_nil_iff in W. now rewrite W.
      - destruct (trim x) eqn:Tx; [|reflexivity].
        apply trim_nil_iff in Tx. congruence. }
    now rewrite !T. }
  unfold getValidArchiveConfigs. cbn [archiveConfigs]. rewrite !Same.
  split; [reflexivity|].
  induction (archiveConfigs s) as [|c l IH]; [reflexivity|].
  simpl. destruct (validConfig c) eqn:V; [|exact IH].
  simpl. now rewrite V, IH.
Qed.

Lemma startsWith_split (s p : jsstring) :
  startsWith s p = true -> s = p ++ skipn (List.length p) s.
Proof.
  revert s. induction p as [|y p IH]; intros s E; [reflexivity|].
  destruct s as [|x s]; [discriminate|].
  simpl in E. apply andb_prop in E. destruct E as [E1 E2].
  apply N.eqb_eq in E1. subst y. simpl. f_equal. now apply IH.
Qed.

(** X7: for a file that belongs to a rule ([doesFileBelongToArchiveConfig]),
    the source folder string followed by [getFilePathInSourceFolder] is the
    path of the file; and every path that begins with the source folder
    string belongs. *)
Theorem belonging_file_path (sourceFile : TFile) (archiveConfig : ArchiveConfig) :
  (doesFileBelongToArchiveConfig sourceFile archiveConfig = true ->
   sourceFolder archiveConfig ++ getFilePathInSourceFolder sourceFile archiveConfig
   = path sourceFile) /\
  (forall rest, path sourceFile = sourceFolder archiveConfig ++ rest ->
                doesFileBelongToArchiveConfig sourceFile archiveConfig = true /\
                getFilePathInSourceFolder sourceFile archiveConfig = rest).
Proof.
  unfold doesFileBelongToArchiveConfig, getFilePathInSourceFolder. split.
  - intros B. apply startsWith_split in B. rewrite B at 1.
    rewrite replaceFirstWithEmpty_prefix. now rewrite <- B.
  - intros rest ->. split; [apply startsWith_self|].
    apply replaceFirstWithEmpty_prefix.
Qed.

Lemma belonging_file_path_witness :
  sourceFolder (notesRule true true) ++
  getFilePathInSourceFolder note31 (notesRule true true) = path note31.
Proof.
  apply (belonging_file_path note31 (notesRule true true)). reflexivity.
Defined.

Lemma joinPaths_slash_clean (a b : jsstring) :
  headClean a = true -> headClean (rev a) = true ->
  headClean b = true -> headClean (rev b) = true ->
  joinPaths a (slash :: b) = a ++ [slash] ++ b.
Proof.
  intros Ha Ha' Hb Hb'. rewrite <- (joinPaths_clean a b) by assumption.
  rewrite !joinPaths_glue. f_equal. f_equal.
  destruct (headClean_inv _ Hb) as [cb [rb [Eb [Wb Sb]]]].
  destruct (headClean_inv _ Hb') as [cb' [rb' [Eb' [Wb' Sb']]]].
  assert (Tb : trim b = b).
  { unfold trim, trimEnd, trimStart.
    destruct (@clean_ends_fixed isWhiteSpace b) as [T1 T2].
    - intros x y E. rewrite Eb in E. now injection E as <- _.
    - intros x y E. rewrite Eb' in E. now injection E as <- _.
    - now rewrite T1, T2. }
  assert (Ts : trim (slash :: b) = slash :: b).
  { unfold trim, trimEnd, trimStart.
    destruct (@clean_ends_fixed isWhiteSpace (slash :: b)) as [T1 T2].
    - intros x y E. now injection E as <- _.
    - intros x y E. simpl in E. rewrite Eb' in E. now injection E as <- _.
    - now rewrite T1, T2. }
  rewrite Tb, Ts. reflexivity.
Qed.

(** X8: for a file on a clean path under the source folder, joining the
    source folder with [getFilePathInSourceFolder] gives the path of the
    file back.  So a rule that keeps the structure and archives a folder
    into itself sends every file to the path it already has. *)
Theorem joinPaths_restores_path (sourceFile : TFile) (archiveConfig : ArchiveConfig)
  (segs : list jsstring) :
  segs <> [] ->
  path sourceFile = sourceFolder archiveConfig ++ [slash] ++ join [slash] segs ->
  headClean (sourceFolder archiveConfig) = true ->
  headClean (rev (sourceFolder archiveConfig)) = true ->
  Forall (fun s => cleanName s = true) segs ->
  joinPaths (sourceFolder archiveConfig)
            (getFilePathInSourceFolder sourceFile archiveConfig)
  = path sourceFile /\
  (destFolder archiveConfig = sourceFolder archiveConfig ->
   maintainFolderStructure archiveConfig = true ->
   destinationOf sourceFile archiveConfig = path sourceFile).
Proof.
  intros NE Ep Hs Hs' All.
  assert (J : joinPaths (sourceFolder archiveConfig)
                (getFilePathInSourceFolder sourceFile archiveConfig)
              = path sourceFile).
  { unfold getFilePathInSourceFolder.
    rewrite Ep, replaceFirstWithEmpty_prefix.
    destruct (join_clean_ends NE All) as [Jh Jl].
    change ([slash] ++ join [slash] segs) with (slash :: join [slash] segs).
    now apply joinPaths_slash_clean. }
  split; [exact J|].
  intros Ed Em. unfold destinationOf. now rewrite Em, Ed.
Qed.

Lemma joinPaths_restores_path_witness :
  joinPaths (sourceFolder selfRule) (getFilePathInSourceFolder noteA selfRule)
  = path noteA /\
  destinationOf noteA selfRule = path noteA.
Proof.
  destruct (@joinPaths_restores_path noteA selfRule [js "a.md"]) as [J D];
    try reflexivity; try discriminate.
  - repeat constructor.
  - split; [exact J|]. apply D; reflexivity.
Defined.

(* ================================================================== *)
(** ** The files of a scan *)
(* ================================================================== *)

Lemma TFolder_children_ind (P : TFolder -> Prop) :
  (forall p n cs, (forall d, In (AFolder d) cs -> P d) -> P (mkTFolder p n cs)) ->
  forall d, P d.
Proof.
  intros Step. fix IH 1. intros [p n cs]. apply Step.
  induction cs as [|c cs IHcs]; intros d Hd; [destruct Hd|].
  destruct Hd as [E|Hd]; [|now apply IHcs].
  destruct c as [f|d']; [discriminate|].
  injection E as <-. apply IH.
Qed.

Lemma getMarkdownFiles_step (p n : jsstring) (c : TAbstractFile)
  (rest : list TAbstractFile) :
  getMarkdownFilesInFolderRecursive (mkTFolder p n (c :: rest)) =
  match c with
  | AFile f =>
      if endsWith (name f) (js ".md")
      then f :: getMarkdownFilesInFolderRecursive (mkTFolder p n rest)
      else getMarkdownFilesInFolderRecursive (mkTFolder p n rest)
  | AFolder d =>
      getMarkdownFilesInFolderRecursive d ++
      getMarkdownFilesInFolderRecursive (mkTFolder p n rest)
  end.
Proof. destruct c; reflexivity. Qed.

Lemma getMarkdownFiles_children (p n : jsstring) (cs : list TAbstractFile)
  (f : TFile) :
  In f (getMarkdownFilesInFolderRecursive (mkTFolder p n cs)) <->
  (In (AFile f) cs /\ endsWith (name f) (js ".md") = true) \/
  (exists d, In (AFolder d) cs /\ In f (getMarkdownFilesInFolderRecursive d)).
Proof.
  induction cs as [|c cs IH].
  - simpl. split; [tauto|]. intros [[[] _]|[d [[] _]]].
  - rewrite getMarkdownFiles_step. destruct c as [f0|d0].
    + destruct (endsWith (name f0) (js ".md")) eqn:Md.
      * cbn [In]. rewrite IH. split.
        -- intros [->|[[Hf M]|[d [Hd Hin]]]].
           ++ left. split; [now left|exact Md].
           ++ left. split; [now right|exact M].
           ++ right. exists d. split; [now right|exact Hin].
        -- intros [[[E|Hf] M]|[d [[E|Hd] Hin]]].
           ++ injection E as ->. now left.
           ++ right. left. now split.
           ++ discriminate.
           ++ right. right. exists d. now split.
      * rewrite IH. split.
        -- intros [[Hf M]|[d [Hd Hin]]].
           ++ left. split; [now right|exact M].
           ++ right. exists d. split; [now right|exact Hin].
        -- intros [[[E|Hf] M]|[d [[E|Hd] Hin]]].
           ++ injection E as ->. congruence.
           ++ left. now split.
           ++ discriminate.
           ++ right. exists d. now split.
    + rewrite in_app_iff, IH. split.
      * intros [Hin|[[Hf M]|[d [Hd Hin]]]].
        -- right. exists d0. split; [now left|exact Hin].
        -- left. split; [now right|exact M].
        -- right. exists d. split; [now right|exact Hin].
      * intros [[[E|Hf] M]|[d [[E|Hd] Hin]]].
        -- discriminate.
        -- right. left. now split.
        -- injection E as ->. now left.
        -- right. right. exists d. now split.
Qed.

(** X9: the files that a scan of a folder collects are the files that lie
    in the folder, at any depth, and whose name ends in [.md]: none of them
    is missed and nothing else is collected. *)
Theorem getMarkdownFiles_are_the_notes (folder : TFolder) (f : TFile) :
  In f (getMarkdownFilesInFolderRecursive folder) <->
  fileIn f folder /\ endsWith (name f) (js ".md") = true.
Proof.
  split.
  - revert f. induction folder as [p n cs IH] using TFolder_children_ind.
    intros f Hin. apply getMarkdownFiles_children in Hin.
    destruct Hin as [[Hf M]|[d [Hd Hin]]].
    + split; [now apply fileHere|exact M].
    + destruct (IH d Hd f Hin) as [Below M].
      split; [|exact M]. eapply fileBelow; eassumption.
  - intros [Below M]. induction Below as [p n cs Hf|d p n cs Hd _ IH].
    + apply getMarkdownFiles_children. left. now split.
    + apply getMarkdownFiles_children. right. exists d. now split.
Qed.

(* ================================================================== *)
(** ** More about the eligibility test *)
(* ================================================================== *)

(** X10: when no file is eligible.  A file created at the current time or
    later is not eligible under any rule of zero or more days; under a rule
    whose days reach back beyond the range of [Date] (more than
    [today + 8.64e15] ms) no file is eligible at all; and a file whose
    creation time is not a time value is never eligible. *)
Theorem never_eligible (today : Z) (sourceFile : TFile) (archiveConfig : ArchiveConfig) :
  ((0 <= days archiveConfig)%Z -> (today <= ctime (stat sourceFile))%Z ->
   shouldFileBeArchived today sourceFile archiveConfig = false) /\
  ((today + MAX_TIME < NUM_MS_IN_DAY * days archiveConfig)%Z ->
   shouldFileBeArchived today sourceFile archiveConfig = false) /\
  (validTime (ctime (stat sourceFile)) = false ->
   shouldFileBeArchived today sourceFile archiveConfig = false).
Proof.
  assert (Not : forall P : Prop,
             (shouldFileBeArchived today sourceFile archiveConfig = true -> ~ P) ->
             P -> shouldFileBeArchived today sourceFile archiveConfig = false).
  { intros P HP p.
    destruct (shouldFileBeArchived today sourceFile archiveConfig);
      [now destruct (HP eq_refl)|reflexivity]. }
  split; [|split].
  - intros D C. apply (Not (today <= ctime (stat sourceFile))%Z); [|exact C].
    intros S. apply shouldFileBeArchived_true in S. destruct S as [_ [_ Lt]].
    unfold NUM_MS_IN_DAY in Lt. lia.
  - intros Far.
    apply (Not (today + MAX_TIME < NUM_MS_IN_DAY * days archiveConfig)%Z);
      [|exact Far].
    intros S. apply shouldFileBeArchived_true in S. destruct S as [_ [V _]].
    apply validTime_bounds in V. lia.
  - intros Inv. apply (Not (validTime (ctime (stat sourceFile)) = false));
      [|exact Inv].
    intros S. apply shouldFileBeArchived_true in S. destruct S as [V _].
    congruence.
Qed.

Lemma never_eligible_witness :
  shouldFileBeArchived (day 200)
    {| path := js "Notes/new.md"; name := js "new.md";
       stat := {| ctime := day 200 |} |} (notesRule true true) = false /\
  shouldFileBeArchived (day 200) note31
    (withDays 100000201 (notesRule true true)) = false.
Proof.
  split.
  - destruct (never_eligible (day 200)
                {| path := js "Notes/new.md"; name := js "new.md";
                   stat := {| ctime := day 200 |} |} (notesRule true true))
      as [Fresh _].
    apply Fresh; vm_compute; discriminate.
  - destruct (never_eligible (day 200) note31
                (withDays 100000201 (notesRule true true))) as [_ [Far _]].
    apply Far. vm_compute. reflexivity.
Defined.

(* ================================================================== *)
(** ** How a step and a scan end *)
(* ================================================================== *)

Create HintDb refusal.

Section Refusal.

Context {H : Type} {HH : Host H}.

Lemma noRefusedDelete_app (l1 l2 : list Request) :
  noRefusedDelete (l1 ++ l2) = noRefusedDelete l1 && noRefusedDelete l2.
Proof. apply forallb_app. Qed.

Lemma stops_ret {A} (a : A) : StopsAtRefusal (@ret H A a).
Proof.
  intros w. exists []. split; [now rewrite app_nil_r|reflexivity].
Qed.

Lemma stops_bind {A B} (m : M H A) (k : A -> M H B) :
  StopsAtRefusal m -> (forall a, StopsAtRefusal (k a)) ->
  StopsAtRefusal (bind m k).
Proof.
  intros Hm Hk w. unfold bind.
  destruct (Hm w) as [added1 [E1 End1]].
  destruct (m w) as [[a|] w1]; cbn [fst snd] in *.
  - destruct (Hk a w1) as [added2 [E2 End2]].
    exists (added1 ++ added2). split; [now rewrite E2, E1, app_assoc|].
    unfold endsAtRefusal in *. cbn [completedNormally] in End1.
    destruct (completedNormally (fst (k a w1))).
    + now rewrite noRefusedDelete_app, End1, End2.
    + destruct End2 as [before [p [force [-> Nb]]]].
      exists (added1 ++ before), p, force.
      split; [now rewrite app_assoc|].
      now rewrite noRefusedDelete_app, End1, Nb.
  - exists added1. now split.
Qed.

Lemma stops_forOf {A} (xs : list A) (body : A -> M H unit) :
  (forall x, StopsAtRefusal (body x)) -> StopsAtRefusal (forOf xs body).
Proof.
  intros Hb. induction xs as [|x xs IH]; cbn [forOf].
  - apply stops_ret.
  - apply stops_bind; [apply Hb|intros _; exact IH].
Qed.

Lemma stops_today : StopsAtRefusal today.
Proof. intros w. exists []. split; [now rewrite app_nil_r|reflexivity]. Qed.

Lemma stops_readSettings : StopsAtRefusal (@readSettings H).
Proof. intros w. exists []. split; [now rewrite app_nil_r|reflexivity]. Qed.

Lemma stops_consoleWarn (msg : jsstring) : StopsAtRefusal (@consoleWarn H msg).
Proof. intros w. exists []. split; [now rewrite app_nil_r|reflexivity]. Qed.

Lemma stops_lookup (p : jsstring) : StopsAtRefusal (lookup p).
Proof. intros w. exists [ReqLookup p]. split; reflexivity. Qed.

Lemma stops_delete (e : TAbstractFile) (force : bool) :
  StopsAtRefusal (delete e force).
Proof.
  intros w. rewrite delete_run. cbn [fst snd].
  exists [ReqDelete (pathOf e) force (snd (vaultDelete (host w) e force))].
  split; [reflexivity|].
  destruct (snd (vaultDelete (host w) e force)); [reflexivity|].
  exists [], (pathOf e), force. now split.
Qed.

Lemma stops_copyFile (f : TFile) (p : jsstring) : StopsAtRefusal (copyFile f p).
Proof.
  intros w. rewrite copyFile_run. eexists [_]. split; reflexivity.
Qed.

Lemma stops_createFoldersInPath (p : jsstring) :
  StopsAtRefusal (createFoldersInPath p).
Proof.
  intros w. rewrite createFoldersInPath_run. eexists [_]. split; reflexivity.
Qed.

Hint Resolve stops_ret stops_today stops_readSettings stops_consoleWarn
  stops_lookup stops_delete stops_copyFile stops_createFoldersInPath : refusal.

Ltac refusal :=
  repeat first
    [ progress auto with refusal
    | apply stops_bind; [|intros ?]
    | apply stops_forOf; intros ?
    | match goal with
      | |- StopsAtRefusal (if ?b then _ else _) => destruct b
      | |- StopsAtRefusal (match ?x with Some _ => _ | None => _ end) => destruct x
      | |- StopsAtRefusal (match ?x with AFile _ => _ | AFolder _ => _ end) =>
          destruct x
      end ].

Lemma stops_pruneRounds (n : nat) (cfg : ArchiveConfig) (parts : list jsstring) :
  StopsAtRefusal (pruneRounds n cfg parts).
Proof.
  revert parts. induction n as [|n IH]; intros parts; cbn [pruneRounds].
  - apply stops_ret.
  - apply stops_bind; [apply stops_lookup|intros found].
    apply stops_bind; [refusal|intros _; apply IH].
Qed.

Lemma stops_deleteEmptyFolders (f : TFile) (cfg : ArchiveConfig) :
  StopsAtRefusal (deleteEmptyFolders f cfg).
Proof.
  unfold deleteEmptyFolders.
  destruct (0 <? _)%Z; [apply stops_pruneRounds|apply stops_ret].
Qed.

Lemma stops_processSourceFile (f : TFile) (cfg : ArchiveConfig) :
  StopsAtRefusal (processSourceFile f cfg).
Proof.
  pose proof stops_deleteEmptyFolders.
  unfold processSourceFile. refusal.
Qed.

Lemma stops_processArchiveConfig (cfg : ArchiveConfig) :
  StopsAtRefusal (processArchiveConfig cfg).
Proof.
  pose proof stops_processSourceFile.
  unfold processArchiveConfig. refusal.
Qed.

End Refusal.

(** X11: a scan throws only over a refused delete, and it stops there.
    When [processVault] completes normally, no delete that it requested was
    refused; when it throws, the last request that it sent is a refused
    delete, and nothing was refused before. *)
Theorem scan_stops_at_refused_delete {H} {HH : Host H} (w : World H) :
  exists added,
    requests (snd (processVault w)) = requests w ++ added /\
    (fst (processVault w) = Normal tt -> noRefusedDelete added = true) /\
    (fst (processVault w) = Thrown ->
     exists before p force,
       added = before ++ [ReqDelete p force false] /\
       noRefusedDelete before = true).
Proof.
  assert (S : StopsAtRefusal (processVault (H := H))).
  { unfold processVault. apply stops_bind; [apply stops_readSettings|].
    intros s. apply stops_forOf. intros cfg. apply stops_processArchiveConfig. }
  destruct (S w) as [added [E End]]. exists added. split; [exact E|].
  unfold endsAtRefusal in End. split; intros C; rewrite C in End; exact End.
Qed.

(** X12: the rules after a thrown step are not scanned.  When the round of
    a rule throws, the scan throws with the world of that moment: no later
    rule is looked up. *)
Theorem scan_ends_with_the_throwing_rule {H} {HH : Host H}
  (pre rest : list ArchiveConfig) (cfg : ArchiveConfig) (w w1 w2 : World H) :
  getValidArchiveConfigs (settings w) = pre ++ cfg :: rest ->
  forOf pre processArchiveConfig w = (Normal tt, w1) ->
  processArchiveConfig cfg w1 = (Thrown, w2) ->
  processVault w = (Thrown, w2).
Proof.
  intros Valid Before Throws.
  rewrite processVault_unfold, Valid, forOf_app, Before.
  cbn [forOf]. unfold bind. now rewrite Throws.
Qed.

(** The witness: [Notes] is archived into itself.  The step for [a.md]
    deletes the note as the occupant of its destination, cannot copy it any
    more, and the delete of the source is refused; [b.md] and the rule for
    [Journal] are not reached. *)
Lemma scan_ends_with_the_throwing_rule_witness :
  let w := freshWorld {| archiveConfigs := [selfRule; journalRule] |}
                      vaultWithTwoNotes in
  processVault w = (Thrown, snd (processArchiveConfig selfRule w)) /\
  requests (snd (processVault w)) =
  [ ReqLookup (js "Notes");
    ReqCreateFolder (js "Notes") false;
    ReqLookup (js "Notes/a.md");
    ReqDelete (js "Notes/a.md") false true;
    ReqCopy (js "Notes/a.md") (js "Notes/a.md") false;
    ReqDelete (js "Notes/a.md") false false ].
Proof.
  intros w. split.
  - apply (@scan_ends_with_the_throwing_rule _ _ [] [journalRule] selfRule
             w w (snd (processArchiveConfig selfRule w)));
      vm_compute; reflexivity.
  - vm_compute. reflexivity.
Defined.

(* ================================================================== *)
(** ** More about the prune walk and the per-file step *)
(* ================================================================== *)

Lemma logged_nil {H} (w : World H) : logged [] w = w.
Proof. destruct w. unfold logged. simpl. now rewrite app_nil_r. Qed.

Lemma logged_logged {H} (a b : list Request) (w : World H) :
  logged b (logged a w) = logged (a ++ b) w.
Proof. unfold logged. simpl. now rewrite app_assoc. Qed.

Lemma pruneRounds_idle {H} {HH : Host H} (n : nat) (cfg : ArchiveConfig) :
  forall (parts : list jsstring) (w : World H),
    (forall p, In p (walkPaths n (sourceFolder cfg) parts) ->
               resolvesToEmptyFolder (getAbstractFileByPath (host w) p) = false) ->
    pruneRounds n cfg parts w =
    (Normal tt, logged (map ReqLookup (walkPaths n (sourceFolder cfg) parts)) w).
Proof.
  induction n as [|n IH]; intros parts w Idle; cbn [pruneRounds walkPaths map].
  - unfold ret. now rewrite logged_nil.
  - unfold bind, lookup. cbn [fst snd].
    set (p := joinPaths (sourceFolder cfg) (join [slash] parts)) in *.
    assert (E : (match getAbstractFileByPath (host w) p with
                 | Some (AFolder d) =>
                     if (Z.of_nat (List.length (childrenOf d)) =? 0)%Z
                     then delete (AFolder d) true else ret tt
                 | _ => ret tt
                 end) (logRequest (ReqLookup p) w)
                = (Normal tt, logged [ReqLookup p] w)).
    { pose proof (Idle p (or_introl eq_refl)) as Ip.
      unfold resolvesToEmptyFolder in Ip.
      destruct (getAbstractFileByPath (host w) p) as [[f|d]|]; try reflexivity.
      now rewrite Ip. }
    rewrite E. rewrite IH.
    + now rewrite logged_logged.
    + intros q Hq. apply Idle. now right.
Qed.

(** X13: the prune walk and folders that are not empty.  When none of the
    paths of the walk resolves to a folder without children, the walk only
    looks them up: it sends no delete and leaves the vault as it is.  And a
    walk that completes has looked up every one of its paths, also those
    above a folder that it found not to be empty. *)
Theorem prune_walk_spares_what_is_not_empty {H} {HH : Host H}
  (deletedFile : TFile) (archiveConfig : ArchiveConfig) (w : World H) :
  ((forall p, In p (walkOf deletedFile archiveConfig) ->
              resolvesToEmptyFolder (getAbstractFileByPath (host w) p) = false) ->
   deleteEmptyFolders deletedFile archiveConfig w =
   (Normal tt, logged (map ReqLookup (walkOf deletedFile archiveConfig)) w)) /\
  (exists added,
      requests (snd (deleteEmptyFolders deletedFile archiveConfig w)) =
      requests w ++ added /\
      (fst (deleteEmptyFolders deletedFile archiveConfig w) = Normal tt ->
       lookedUp added = walkOf deletedFile archiveConfig)).
Proof.
  unfold walkOf, deleteEmptyFolders.
  destruct (splitPathString
              (getFolderFromPath
                 (getFilePathInSourceFolder deletedFile archiveConfig)))
    as [|s parts].
  - cbn. split.
    + intros _. unfold ret. now rewrite logged_nil.
    + exists []. split; [now rewrite app_nil_r|reflexivity].
  - replace (0 <? Z.of_nat (List.length (s :: parts)))%Z with true
      by (symmetry; apply Z.ltb_lt; simpl List.length; lia).
    split.
    + apply pruneRounds_idle.
    + destruct (pruneRounds_walks (List.length (s :: parts)) archiveConfig
                  (s :: parts) w) as [added [E W]].
      exists added. split; [exact E|]. intros N.
      destruct (WalkLog_lookups W) as [rest [L Done]].
      rewrite N in Done. rewrite (Done eq_refl), app_nil_r in L. exact L.
Qed.

Lemma prune_walk_spares_what_is_not_empty_witness :
  let w := freshWorld DEFAULT_SETTINGS sampleVault in
  deleteEmptyFolders note31 (notesRule true true) w =
  (Normal tt,
   logged [ReqLookup (js "Notes/2023/December"); ReqLookup (js "Notes/2023")] w).
Proof.
  intros w.
  destruct (@prune_walk_spares_what_is_not_empty _ _ note31
              (notesRule true true) w) as [Idle _].
  apply Idle. intros p Hp. vm_compute in Hp.
  destruct Hp as [<-|[<-|[]]]; vm_compute; reflexivity.
Defined.

(** X14: for a file that lies in the source folder itself, the prune walk
    has nothing to look at: [deleteEmptyFolders] sends no request,
    whatever the source folder string is. *)
Theorem no_walk_for_a_file_in_the_source_folder {H} {HH : Host H}
  (deletedFile : TFile) (archiveConfig : ArchiveConfig) (nm : jsstring)
  (w : World H) :
  path deletedFile = sourceFolder archiveConfig ++ [slash] ++ nm ->
  slashFree nm = true -> endsWith nm (js ".md") = true ->
  deleteEmptyFolders deletedFile archiveConfig w = (Normal tt, w).
Proof.
  intros Ep F Md. unfold deleteEmptyFolders.
  rewrite (@parts_of_clean_path deletedFile archiveConfig [] nm Ep
             (Forall_nil _) F Md).
  reflexivity.
Qed.

Lemma no_walk_for_a_file_in_the_source_folder_witness :
  deleteEmptyFolders noteA selfRule (freshWorld DEFAULT_SETTINGS vaultWithTwoNotes)
  = (Normal tt, freshWorld DEFAULT_SETTINGS vaultWithTwoNotes).
Proof.
  apply (@no_walk_for_a_file_in_the_source_folder _ _ noteA selfRule (js "a.md"));
    reflexivity.
Defined.

Section Occupied.

Context {H : Type} {HH : Host H}.

Lemma log_grows_after_copy (f : TFile) (cfg : ArchiveConfig) (w : World H) :
  exists tail,
    requests
      (snd (bind (delete (AFile f) false)
                 (fun _ => if Config.deleteEmptyFolders cfg
                           then deleteEmptyFolders f cfg else ret tt) w))
    = requests w ++ tail.
Proof.
  assert (S : StopsAtRefusal
                (bind (delete (AFile f) false)
                      (fun _ => if Config.deleteEmptyFolders cfg
                                then deleteEmptyFolders f cfg else ret tt))).
  { apply stops_bind; [apply stops_delete|]. intros _.
    destruct (Config.deleteEmptyFolders cfg);
      [apply stops_deleteEmptyFolders|apply stops_ret]. }
  destruct (S w) as [tail [E _]]. now exists tail.
Qed.

(** The step from the world [w1] in which the destination is looked up. *)
Lemma step_from_lookup (f : TFile) (cfg : ArchiveConfig) (w : World H) :
  shouldFileBeArchived (dateNow (host w)) f cfg = true ->
  processSourceFile f cfg w =
  bind (lookup (destinationOf f cfg))
       (fun existingArchiveFile =>
          bind (match existingArchiveFile with
                | Some existing => delete existing false
                | None => ret tt
                end)
               (fun _ =>
                  bind (copyFile f (destinationOf f cfg))
                       (fun _ =>
                          bind (delete (AFile f) false)
                               (fun _ =>
                                  if Config.deleteEmptyFolders cfg
                                  then deleteEmptyFolders f cfg
                                  else ret tt))))
       (if maintainFolderStructure cfg
        then snd (createFoldersInPath (destinationOf f cfg) w) else w).
Proof.
  intros Elig. unfold processSourceFile, destinationOf.
  unfold bind at 1. unfold today. rewrite Elig. unfold bind at 1.
  destruct (maintainFolderStructure cfg).
  - unfold bind at 1. rewrite createFoldersInPath_run. reflexivity.
  - reflexivity.
Qed.

End Occupied.

(** X15: the last write wins.  In the step for an eligible file, what the
    lookup finds at the destination is deleted before the copy is
    requested; when that delete is refused the step throws at once, without
    a copy and without touching the source file; and when the destination
    is free the copy follows the lookup directly. *)
Theorem occupied_destination_is_cleared_first {H} {HH : Host H}
  (sourceFile : TFile) (archiveConfig : ArchiveConfig) (w : World H) :
  shouldFileBeArchived (dateNow (host w)) sourceFile archiveConfig = true ->
  let d := destinationOf sourceFile archiveConfig in
  let w1 := if maintainFolderStructure archiveConfig
            then snd (createFoldersInPath d w) else w in
  match getAbstractFileByPath (host w1) d with
  | Some existing =>
      let answer := vaultDelete (host w1) existing false in
      if snd answer then
        exists okCopy tail,
          requests (snd (processSourceFile sourceFile archiveConfig w)) =
          requests w1 ++
          ReqLookup d :: ReqDelete (pathOf existing) false true ::
          ReqCopy (path sourceFile) d okCopy :: tail
      else
        processSourceFile sourceFile archiveConfig w =
        (Thrown,
         logged [ReqLookup d; ReqDelete (pathOf existing) false false]
                (withHost (fst answer) w1))
  | None =>
      exists okCopy tail,
        requests (snd (processSourceFile sourceFile archiveConfig w)) =
        requests w1 ++ ReqLookup d :: ReqCopy (path sourceFile) d okCopy :: tail
  end.
Proof.
  intros Elig d w1. rewrite (step_from_lookup sourceFile archiveConfig w Elig).
  fold d. fold w1.
  assert (Ev : forall A B (m : M H A) (k : A -> M H B) w0,
             bind m k w0 =
             match m w0 with
             | (Normal a, w') => k a w'
             | (Thrown, w') => (Thrown, w')
             end) by reflexivity.
  assert (Lk : forall p w0,
             lookup p w0 =
             (Normal (getAbstractFileByPath (host w0) p),
              logRequest (ReqLookup p) w0)) by reflexivity.
  rewrite Ev, Lk.
  destruct (getAbstractFileByPath (host w1) d) as [existing|].
  - rewrite Ev, delete_run. cbn [host logRequest].
    destruct (snd (vaultDelete (host w1) existing false)).
    + rewrite Ev, copyFile_run.
      match goal with
      | |- context [bind (delete (AFile sourceFile) false) ?k ?wb] =>
          destruct (log_grows_after_copy sourceFile archiveConfig wb)
            as [tail E]
      end.
      eexists _, tail. rewrite E. cbn [logRequest withHost requests].
      rewrite <- !app_assoc. reflexivity.
    + unfold logged, withHost, logRequest.
      cbn [settings host requests console].
      rewrite <- app_assoc. reflexivity.
  - rewrite Ev. unfold ret at 1. rewrite Ev, copyFile_run.
    match goal with
    | |- context [bind (delete (AFile sourceFile) false) ?k ?wb] =>
        destruct (log_grows_after_copy sourceFile archiveConfig wb)
          as [tail E]
    end.
    eexists _, tail. rewrite E. cbn [logRequest withHost requests].
    rewrite <- !app_assoc. reflexivity.
Qed.

Lemma occupied_destination_is_cleared_first_witness :
  let w := freshWorld DEFAULT_SETTINGS vaultWithTwoNotes in
  exists okCopy tail,
    requests (snd (processSourceFile noteA selfRule w)) =
    [ReqCreateFolder (js "Notes") false] ++
    ReqLookup (js "Notes/a.md") :: ReqDelete (js "Notes/a.md") false true ::
    ReqCopy (js "Notes/a.md") (js "Notes/a.md") okCopy :: tail.
Proof.
  intros w.
  assert (Elig : shouldFileBeArchived (dateNow (host w)) noteA selfRule = true)
    by (vm_compute; reflexivity).
  exact (@occupied_destination_is_cleared_first _ _ noteA selfRule w Elig).
Defined.

(* ================================================================== *)
(** ** A scan with nothing to archive *)
(* ================================================================== *)

Section IdleScan.

Context {H : Type} {HH : Host H}.

Lemma files_loop_idle (cfg : ArchiveConfig) (files : list TFile) (w : World H) :
  (forall f, In f files ->
             shouldFileBeArchived (dateNow (host w)) f cfg = false) ->
  forOf files (fun sourceFile => processSourceFile sourceFile cfg) w =
  (Normal tt, w).
Proof.
  induction files as [|f files IH]; intros Idle; [reflexivity|].
  cbn [forOf]. unfold bind at 1.
  assert (E : processSourceFile f cfg w = (Normal tt, w)).
  { unfold processSourceFile, bind, today.
    now rewrite (Idle f (or_introl eq_refl)). }
  rewrite E. apply IH. intros g Hg. apply Idle. now right.
Qed.

Lemma rules_loop_idle (cfgs : list ArchiveConfig) :
  forall w : World H,
    (forall cfg d f,
        In cfg cfgs ->
        getAbstractFileByPath (host w) (sourceFolder cfg) = Some (AFolder d) ->
        In f (getMarkdownFilesInFolderRecursive d) ->
        shouldFileBeArchived (dateNow (host w)) f cfg = false) ->
    forOf cfgs processArchiveConfig w =
    (Normal tt,
     {| settings := settings w; host := host w;
        requests := requests w ++
                    map (fun cfg => ReqLookup (sourceFolder cfg)) cfgs;
        console := console w ++
                   flat_map
                     (fun cfg =>
                        let found :=
                          getAbstractFileByPath (host w) (sourceFolder cfg) in
                        if resolvesToFolder found then []
                        else [notAFolderWarning found]) cfgs |}).
Proof.
  induction cfgs as [|cfg cfgs IH]; intros w Idle.
  - cbn. rewrite !app_nil_r. now destruct w.
  - cbn [forOf map flat_map]. unfold bind at 1.
    assert (E : exists w1,
               processArchiveConfig cfg w = (Normal tt, w1) /\
               settings w1 = settings w /\ host w1 = host w /\
               requests w1 = requests w ++ [ReqLookup (sourceFolder cfg)] /\
               console w1 = console w ++
                 (if resolvesToFolder
                       (getAbstractFileByPath (host w) (sourceFolder cfg))
                  then []
                  else [notAFolderWarning
                          (getAbstractFileByPath (host w) (sourceFolder cfg))])).
    { unfold processArchiveConfig, bind, lookup. cbn [fst snd].
      destruct (getAbstractFileByPath (host w) (sourceFolder cfg))
        as [[f|d]|] eqn:Found.
      - eexists. split; [reflexivity|]. repeat split.
      - rewrite files_loop_idle.
        + eexists. split; [reflexivity|]. cbn. now rewrite app_nil_r.
        + intros f Hf. cbn [host logRequest].
          apply (Idle cfg d f); [now left|exact Found|exact Hf].
      - eexists. split; [reflexivity|]. repeat split. }
    destruct E as [w1 [E [Es [Eh [Er Ec]]]]]. rewrite E.
    rewrite (IH w1).
    + rewrite Es, Eh, Er, Ec, <- !app_assoc. reflexivity.
    + intros c d f Hc Hd Hf. rewrite Eh in *.
      apply (Idle c d f); [now right|exact Hd|exact Hf].
Qed.

End IdleScan.

(** X16: a scan in which no collected file is eligible changes nothing.
    It only looks up the source folder of each valid rule, in the order of
    the rules, prints the warning for each one that is not a folder, sends
    no other request and completes normally. *)
Theorem scan_without_eligible_files {H} {HH : Host H} (w : World H) :
  (forall cfg d f,
      In cfg (getValidArchiveConfigs (settings w)) ->
      getAbstractFileByPath (host w) (sourceFolder cfg) = Some (AFolder d) ->
      In f (getMarkdownFilesInFolderRecursive d) ->
      shouldFileBeArchived (dateNow (host w)) f cfg = false) ->
  processVault w =
  (Normal tt,
   {| settings := settings w; host := host w;
      requests := requests w ++
                  map (fun cfg => ReqLookup (sourceFolder cfg))
                      (getValidArchiveConfigs (settings w));
      console := console w ++
                 flat_map
                   (fun cfg =>
                      let found :=
                        getAbstractFileByPath (host w) (sourceFolder cfg) in
                      if resolvesToFolder found then []
                      else [notAFolderWarning found])
                   (getValidArchiveConfigs (settings w)) |}).
Proof.
  intros Idle. rewrite processVault_unfold. now apply rules_loop_idle.
Qed.

Lemma scan_without_eligible_files_witness :
  let w := freshWorld
             {| archiveConfigs := [withDays 365 (notesRule true true)] |}
             sampleVault in
  processVault w = (Normal tt, logged [ReqLookup (js "Notes")] w).
Proof.
  intros w.
  rewrite (@scan_without_eligible_files _ _ w); [reflexivity|].
  intros cfg d f Hc Hd Hf.
  vm_compute in Hc. destruct Hc as [<-|[]].
  vm_compute in Hd. injection Hd as <-.
  vm_compute in Hf. destruct Hf as [<-|[]].
  vm_compute. reflexivity.
Defined.

(* ================================================================== *)
(** ** The settings tab *)
(* ================================================================== *)

Module SettingTabFacts.

Import SettingTab.

Lemma numberFrom_lower (digits : jsstring) (acc : Z) :
  (0 <= acc)%Z -> (acc <= numberFrom acc digits)%Z.
Proof.
  revert acc. induction digits as [|c digits IH]; intros acc Ha; simpl; [lia|].
  etransitivity; [|apply IH]; lia.
Qed.

Lemma numberFrom_snoc (digits : jsstring) (c : N) (acc : Z) :
  numberFrom acc (digits ++ [c]) =
  (numberFrom acc digits * 10 + Z.of_N (c - 48))%Z.
Proof.
  revert acc. induction digits as [|d digits IH]; intros acc; simpl;
    [reflexivity|apply IH].
Qed.

Lemma numberFrom_zeros (digits : jsstring) :
  forallb (N.eqb 48) digits = true -> numberFrom 0 digits = 0%Z.
Proof.
  induction digits as [|c digits IH]; cbn [forallb numberFrom]; [reflexivity|].
  intros E. apply andb_prop in E. destruct E as [E1 E2].
  apply N.eqb_eq in E1. subst c. now apply IH.
Qed.

Lemma stripNonNumbers_junk (junk : jsstring) :
  forallb (fun c => negb (isDigit c)) junk = true -> stripNonNumbers junk = [].
Proof.
  unfold stripNonNumbers. induction junk as [|c junk IH]; simpl; [reflexivity|].
  intros E. apply andb_prop in E. destruct E as [E1 E2].
  destruct (isDigit c); [discriminate|]. now apply IH.
Qed.

Lemma daysFromInput_positive (value : jsstring) : (1 <= daysFromInput value)%Z.
Proof.
  unfold daysFromInput, Number, MIN_DAYS.
  pose proof (@numberFrom_lower (stripNonNumbers value) 0 ltac:(lia)) as L.
  destruct (numberFrom 0 (stripNonNumbers value) =? 0)%Z eqn:E; [lia|].
  apply Z.eqb_neq in E. lia.
Qed.

Lemma updateAt_Forall (P : ArchiveConfig -> Prop) (f : ArchiveConfig -> ArchiveConfig)
  (i : nat) (configs : list ArchiveConfig) :
  (forall c, P c -> P (f c)) -> Forall P configs -> Forall P (updateAt i f configs).
Proof.
  intros Hf All. revert i.
  induction All as [|c l Hc Hl IH]; intros [|i]; simpl; constructor; auto.
Qed.

Lemma splice1_Forall (P : ArchiveConfig -> Prop) (i : nat)
  (configs : list ArchiveConfig) :
  Forall P configs -> Forall P (splice1 i configs).
Proof.
  intros All. unfold splice1. apply Forall_app. split.
  - now apply Forall_firstn.
  - rewrite Forall_forall in *. intros x Hx. apply All.
    rewrite <- (firstn_skipn (S i) configs). apply in_or_app. now right.
Qed.

Lemma handle_keeps (P : ArchiveConfig -> Prop) (e : Event)
  (s : AutoArchivePluginSettings) :
  (forall c x, P c -> P (setSourceFolder x c)) ->
  (forall c x, P c -> P (setDestFolder x c)) ->
  (forall c b, P c -> P (setMaintainFolderStructure b c)) ->
  (forall c b, P c -> P (setDeleteEmptyFolders b c)) ->
  (forall c v, P c -> P (setDays (daysFromInput v) c)) ->
  P newArchiveConfig ->
  Forall P (archiveConfigs s) -> Forall P (archiveConfigs (handle e s)).
Proof.
  intros H1 H2 H3 H4 H5 H6 All. destruct e; cbn [handle archiveConfigs].
  - apply updateAt_Forall; auto.
  - apply updateAt_Forall; auto.
  - apply updateAt_Forall; auto.
  - apply updateAt_Forall; auto.
  - apply updateAt_Forall; auto.
  - now apply splice1_Forall.
  - apply Forall_app. split; [exact All|]. now repeat constructor.
Qed.

End SettingTabFacts.

(** X17: the days box.  For a text with at most 15 digits, the value that
    the callback stores is at least 1; only the digits of the text count,
    whatever stands between them; a text without a digit, or with zeros
    only, stores [MIN_DAYS]; and one more digit behind a number that is not
    zero makes ten times the number plus the digit. *)
Theorem days_box_stores_a_positive_number (value : jsstring) :
  (List.length (SettingTab.stripNonNumbers value) <= 15)%nat ->
  (1 <= SettingTab.daysFromInput value)%Z /\
  SettingTab.daysFromInput value =
  SettingTab.daysFromInput (SettingTab.stripNonNumbers value) /\
  (forallb (N.eqb 48) (SettingTab.stripNonNumbers value) = true ->
   SettingTab.daysFromInput value = MIN_DAYS) /\
  (forall junk c,
      (List.length (SettingTab.stripNonNumbers value) < 15)%nat ->
      forallb (fun c => negb (SettingTab.isDigit c)) junk = true ->
      SettingTab.isDigit c = true ->
      SettingTab.Number (SettingTab.stripNonNumbers value) <> 0%Z ->
      SettingTab.daysFromInput (value ++ junk ++ [c]) =
      (SettingTab.daysFromInput value * 10 + Z.of_N (c - 48))%Z).
Proof.
  intros _. split; [apply SettingTabFacts.daysFromInput_positive|].
  split; [|split].
  - unfold SettingTab.daysFromInput, SettingTab.stripNonNumbers.
    assert (Idem : forall l, filter SettingTab.isDigit (filter SettingTab.isDigit l)
                              = filter SettingTab.isDigit l).
    { intros l. apply forallb_filter_id, forallb_forall.
      intros x Hx. now apply filter_In in Hx. }
    now rewrite Idem.
  - intros Z0. unfold SettingTab.daysFromInput, SettingTab.Number.
    now rewrite (SettingTabFacts.numberFrom_zeros _ Z0).
  - intros junk c _ J D NZ.
    unfold SettingTab.daysFromInput, SettingTab.Number in *.
    unfold SettingTab.stripNonNumbers in *.
    rewrite !filter_app.
    change (filter SettingTab.isDigit junk)
      with (SettingTab.stripNonNumbers junk).
    rewrite (SettingTabFacts.stripNonNumbers_junk _ J).
    cbn [filter app]. rewrite D.
    rewrite SettingTabFacts.numberFrom_snoc.
    pose proof (@SettingTabFacts.numberFrom_lower
                  (filter SettingTab.isDigit value) 0 ltac:(lia)) as L.
    apply Z.eqb_neq in NZ. rewrite NZ.
    replace (_ =? 0)%Z with false; [reflexivity|].
    symmetry. apply Z.eqb_neq. apply Z.eqb_neq in NZ. lia.
Qed.

Lemma days_box_stores_a_positive_number_witness :
  SettingTab.daysFromInput (js "3 days" ++ js ", " ++ [48%N]) =
  (SettingTab.daysFromInput (js "3 days") * 10 + 0)%Z /\
  SettingTab.daysFromInput (js "none") = MIN_DAYS.
Proof.
  split.
  - destruct (@days_box_stores_a_positive_number (js "3 days"))
      as [_ [_ [_ Next]]]; [vm_compute; lia|].
    apply (Next (js ", ") 48%N); [vm_compute; lia|reflexivity|reflexivity|].
    vm_compute. discriminate.
  - destruct (@days_box_stores_a_positive_number (js "none"))
      as [_ [_ [Zero _]]]; [vm_compute; lia|].
    apply Zero. reflexivity.
Defined.

(** X18: the settings tab keeps the days positive, for changes in which
    every text typed into the days box has at most 15 digits (the texts for
    which [SettingTab.Number] is what [Number()] gives).  If every rule has
    at least one day before, it has so after any sequence of such changes;
    so have all the rules made from the default settings.  Under such a
    rule no file younger than a day is eligible. *)
Theorem settings_tab_keeps_days_positive
  (events : list SettingTab.Event) (s : AutoArchivePluginSettings) :
  Forall (fun e => SettingTab.exactInput e = true) events ->
  Forall (fun c => (1 <= days c)%Z) (archiveConfigs s) ->
  Forall (fun c => (1 <= days c)%Z)
         (archiveConfigs (SettingTab.handleAll events s)) /\
  Forall (fun c => (1 <= days c)%Z)
         (archiveConfigs (SettingTab.handleAll events DEFAULT_SETTINGS)) /\
  (forall c today sourceFile,
      In c (archiveConfigs (SettingTab.handleAll events s)) ->
      (today - NUM_MS_IN_DAY <= ctime (stat sourceFile))%Z ->
      shouldFileBeArchived today sourceFile c = false).
Proof.
  intros _ Pos.
  assert (Keep : forall evs s0,
             Forall (fun c => (1 <= days c)%Z) (archiveConfigs s0) ->
             Forall (fun c => (1 <= days c)%Z)
                    (archiveConfigs (SettingTab.handleAll evs s0))).
  { induction evs as [|e evs IH]; intros s0 P0; [exact P0|].
    unfold SettingTab.handleAll. cbn [fold_left]. apply IH.
    apply SettingTabFacts.handle_keeps; try exact P0; try (intros; assumption).
    - intros c v _. apply SettingTabFacts.daysFromInput_positive.
    - simpl. lia. }
  split; [now apply Keep|]. split; [apply Keep; constructor|].
  intros c today f Hc Young.
  pose proof (Keep events s Pos) as All.
  rewrite Forall_forall in All. specialize (All c Hc).
  destruct (shouldFileBeArchived today f c) eqn:S; [|reflexivity].
  apply shouldFileBeArchived_true in S. destruct S as [_ [_ Lt]].
  unfold NUM_MS_IN_DAY in *. lia.
Qed.

Lemma settings_tab_keeps_days_positive_witness :
  Forall (fun c => (1 <= days c)%Z)
    (archiveConfigs
       (SettingTab.handleAll
          [SettingTab.ClickAddArchiveConfig;
           SettingTab.ChangeSourceFolder 0 (js "Notes");
           SettingTab.ChangeDays 0 (js "0");
           SettingTab.ClickAddArchiveConfig;
           SettingTab.ClickDeleteConfig 1]
          DEFAULT_SETTINGS)).
Proof.
  apply (@settings_tab_keeps_days_positive
           [SettingTab.ClickAddArchiveConfig;
            SettingTab.ChangeSourceFolder 0 (js "Notes");
            SettingTab.ChangeDays 0 (js "0");
            SettingTab.ClickAddArchiveConfig;
            SettingTab.ClickDeleteConfig 1]
           DEFAULT_SETTINGS).
  - repeat constructor.
  - constructor.
Defined.

(** X19: the rule that "Add Archive Config" pushes has no folders yet, so
    adding it changes nothing of what a scan does: the scan ends the same
    way, with the same vault, requests and warnings. *)
Theorem added_config_is_not_scanned {H} {HH : Host H} (w : World H) :
  let after := setSettings
                 (SettingTab.handle SettingTab.ClickAddArchiveConfig (settings w))
                 w in
  getValidArchiveConfigs (settings after) = getValidArchiveConfigs (settings w) /\
  fst (processVault after) = fst (processVault w) /\
  host (snd (processVault after)) = host (snd (processVault w)) /\
  requests (snd (processVault after)) = requests (snd (processVault w)) /\
  console (snd (processVault after)) = console (snd (processVault w)).
Proof.
  intros after.
  assert (V : getValidArchiveConfigs (settings after) =
              getValidArchiveConfigs (settings w)).
  { subst after.
    unfold setSettings, SettingTab.handle, getValidArchiveConfigs.
    cbn [settings archiveConfigs]. cbv zeta.
    rewrite filter_app. cbn. apply app_nil_r. }
  split; [exact V|].
  rewrite !processVault_unfold, V.
  assert (B : SettingsBlind
                (forOf (getValidArchiveConfigs (settings w))
                       (processArchiveConfig (H := H))))
    by (apply blind_forOf; intros x; apply blind_processArchiveConfig).
  subst after. rewrite B. cbn [fst snd]. repeat split.
Qed.

(** The walk of the sample note, as X20 states it for clean paths. *)
Lemma prune_walk_on_clean_path_witness :
  let w := freshWorld DEFAULT_SETTINGS sampleVault in
  exists added rest,
    requests (snd (deleteEmptyFolders note31 (notesRule true true) w)) =
    requests w ++ added /\
    lookedUp added ++ rest =
    foldersBetween (js "Notes") [js "2023"; js "December"] /\
    (fst (deleteEmptyFolders note31 (notesRule true true) w) = Normal tt ->
     rest = []) /\
    ~ In (js "Notes") (lookedUp added).
Proof.
  intros w.
  apply (@prune_walk_on_clean_path _ _ note31 (notesRule true true)
           [js "2023"; js "December"] (js "31.md") w);
    try reflexivity.
  repeat constructor.
Defined.

(* ================================================================== *)
(** ** The destination under the root folder *)
(* ================================================================== *)

(** Behind the source folder string, the path is the path relative to the
    source folder: for such a file the destination with the structure kept
    is [joinPaths(destFolder, relative path)]. *)
Lemma destination_behind_the_source_folder
  (sourceFile : TFile) (archiveConfig : ArchiveConfig) (relative : jsstring) :
  path sourceFile = sourceFolder archiveConfig ++ relative ->
  maintainFolderStructure archiveConfig = true ->
  destinationOf sourceFile archiveConfig =
  joinPaths (destFolder archiveConfig) relative.
Proof.
  intros Ep Em. unfold destinationOf, getFilePathInSourceFolder.
  now rewrite Em, Ep, replaceFirstWithEmpty_prefix.
Qed.

(** C4, at the failing input: the rule archives the root folder [/] into
    [Archive] and keeps the structure.  The scan of [/] collects the note
    [x/y/a.md]; its path relative to the root is [x/y/a.md], so it belongs
    at [Archive/x/y/a.md].  The path does not begin with [/]:
    [getFilePathInSourceFolder] cuts the first slash out of it and gives
    [xy/a.md], the step makes the folder [Archive/xy] and the note ends at
    [Archive/xy/a.md]. *)
Theorem destination_under_the_root_folder :
  let w := freshWorld {| archiveConfigs := [rootRule] |} vaultWithNestedNote in
  resolvesToFolder (getAbstractFileByPath vaultWithNestedNote (js "/")) = true /\
  (forall d, getAbstractFileByPath vaultWithNestedNote (js "/") = Some (AFolder d) ->
             getMarkdownFilesInFolderRecursive d = [nestedNote]) /\
  stripPrefix (path nestedNote) (sourceFolder rootRule) = None /\
  getFilePathInSourceFolder nestedNote rootRule = js "xy/a.md" /\
  joinPaths (destFolder rootRule) (path nestedNote) = js "Archive/x/y/a.md" /\
  destinationOf nestedNote rootRule = js "Archive/xy/a.md" /\
  fst (processVault w) = Normal tt /\
  requests (snd (processVault w)) =
  [ ReqLookup (js "/");
    ReqCreateFolder (js "Archive/xy") true;
    ReqLookup (js "Archive/xy/a.md");
    ReqCopy (js "x/y/a.md") (js "Archive/xy/a.md") true;
    ReqDelete (js "x/y/a.md") false true ] /\
  MemVault.rootContent (host (snd (processVault w))) =
  [ MemVault.FolderNode (js "x") [ MemVault.FolderNode (js "y") [] ];
    MemVault.FolderNode (js "Archive")
      [ MemVault.FolderNode (js "xy")
          [ MemVault.FileNode (js "a.md") (day 200) ] ] ].
Proof.
  cbv zeta. split; [vm_compute; reflexivity|]. split.
  - intros d Found. vm_compute in Found. injection Found as <-.
    vm_compute. reflexivity.
  - vm_compute. repeat split; reflexivity.
Qed.
